(** * User registry: a model of [backend/controllers/userController.js]

    The controller keeps a module-level array [users] of plain JavaScript
    objects and exports five Express handlers.  Each handler is embedded
    as a function from the request (path parameter, JSON body), the clock
    and the current array to the response it sends and the array it
    leaves behind.

    Conventions of the embedding:
    - a JavaScript object is a finite map from property names to values;
    - a string is a sequence of UTF-16 code units; the model covers code
      units up to U+00FF, one [ascii] per code unit, and follows
      ECMA-262 for [trim], [toLowerCase] and [parseInt] on that range;
    - a number is an integer-valued double, an infinity or NaN (JSON
      numbers with a fractional part are not represented: the handlers
      only test body numbers for truthiness, where they behave like any
      non-zero integer); [-0] and [+0] are identified, since the code
      never tells them apart;
    - [new Date().toISOString()] is the argument [now];
    - [console.log] and the [message], [count], [required] and
      [timestamp] members of the response envelope are left out. *)

From Stdlib Require Import ZArith Ascii String List Bool Lia.
From stdpp Require Import base option list gmap strings fin_maps.

Local Open Scope Z_scope.
Local Open Scope string_scope.
Local Set Warnings "-register-all,-clear-no-such-hyp".

(** ** JavaScript values *)

Module JS.

Inductive number :=
  | NaN
  | Inf (negative : bool)
  | Fin (z : Z).

Inductive value :=
  | VUndef
  | VNull
  | VBool (b : bool)
  | VNum (n : number)
  | VStr (s : string)
  | VArr (items : list value)
  | VObj (props : gmap string value).

Abbreviation obj := (gmap string value).

(** [o.k]: reading a property that is absent gives [undefined]. *)
Definition get (o : obj) (k : string) : value := default VUndef (o !! k).

(** An object literal [{k1: v1, ..., kn: vn}]. *)
Definition literal (fields : list (string * value)) : obj := list_to_map fields.

(** Object spread [{...a, ...b}]: the properties of [b] win. *)
Definition spread (a b : obj) : obj := b ∪ a.

(** [a === b] on numbers. *)
Definition num_eqb (a b : number) : bool :=
  match a, b with
  | Fin x, Fin y => Z.eqb x y
  | Inf s, Inf t => Bool.eqb s t
  | _, _ => false
  end.

(** [v === n] where [n] is a number. *)
Definition strict_eq_num (v : value) (n : number) : bool :=
  match v with
  | VNum m => num_eqb m n
  | _ => false
  end.

Definition isNaN (n : number) : bool :=
  match n with NaN => true | _ => false end.

(** ToBoolean. *)
Definition truthy (v : value) : bool :=
  match v with
  | VUndef | VNull => false
  | VBool b => b
  | VNum NaN => false
  | VNum (Fin z) => negb (Z.eqb z 0)
  | VNum (Inf _) => true
  | VStr s => negb (String.eqb s "")
  | VArr _ | VObj _ => true
  end.

(** *** Code units *)

Definition code (c : ascii) : Z := Z.of_N (N_of_ascii c).

Definition between (lo hi x : Z) : bool := Z.leb lo x && Z.leb x hi.

(** WhiteSpace and LineTerminator code units below U+0100:
    TAB, LF, VT, FF, CR, SP and NBSP. *)
Definition is_space (c : ascii) : bool :=
  let n := code c in between 9 13 n || Z.eqb n 32 || Z.eqb n 160.

(** Simple lower-case mapping below U+0100: [A-Z] and the capital
    letters U+00C0..U+00DE other than the multiplication sign U+00D7. *)
Definition lower_char (c : ascii) : ascii :=
  let n := code c in
  if between 65 90 n || (between 192 222 n && negb (Z.eqb n 215))
  then ascii_of_N (Z.to_N (n + 32))
  else c.

Fixpoint toLowerCase (s : string) : string :=
  match s with
  | EmptyString => EmptyString
  | String c r => String (lower_char c) (toLowerCase r)
  end.

Fixpoint trimStart (s : string) : string :=
  match s with
  | String c r => if is_space c then trimStart r else s
  | EmptyString => EmptyString
  end.

(** [trimEnd] drops a character when it is white space and everything
    after it has been dropped. *)
Fixpoint trimEnd (s : string) : string :=
  match s with
  | EmptyString => EmptyString
  | String c r =>
      match trimEnd r with
      | EmptyString => if is_space c then EmptyString else String c EmptyString
      | r' => String c r'
      end
  end.

Definition trim (s : string) : string := trimEnd (trimStart s).

(** *** parseInt *)

(** Value of a digit in radix [r], if it is one. *)
Definition digit_value (r : Z) (c : ascii) : option Z :=
  let n := code c in
  let d := if between 48 57 n then n - 48
           else if between 97 122 n then n - 87
           else if between 65 90 n then n - 55
           else 36 in
  if Z.ltb d r then Some d else None.

(** Longest prefix of radix-[r] digits, accumulated from [acc];
    [seen] records whether a digit has been read. *)
Fixpoint digits (r : Z) (s : string) (seen : bool) (acc : Z) : option Z :=
  match s with
  | String c rest =>
      match digit_value r c with
      | Some d => digits r rest true (acc * r + d)
      | None => if seen then Some acc else None
      end
  | EmptyString => if seen then Some acc else None
  end.

(** The Number value of the integer [m >= 0] with the given sign:
    round to nearest, ties to even, on a 53-bit significand. *)
Definition to_double (negative : bool) (m : Z) : number :=
  let r :=
    if Z.ltb m (2 ^ 53) then m
    else
      let e := Z.log2 m - 52 in
      let q := Z.shiftr m e in
      let rest := Z.land m (Z.ones e) in
      let half := 2 ^ (e - 1) in
      let q' := if Z.ltb rest half || (Z.eqb rest half && Z.even q)
                then q else q + 1 in
      Z.shiftl q' e in
  if Z.leb (2 ^ 1024) r then Inf negative
  else Fin (if negative then - r else r).

Definition strip_sign (s : string) : bool * string :=
  match s with
  | String "-" r => (true, r)
  | String "+" r => (false, r)
  | _ => (false, s)
  end.

Definition strip_hex (s : string) : Z * string :=
  match s with
  | String "0" (String "x" r) => (16, r)
  | String "0" (String "X" r) => (16, r)
  | _ => (10, s)
  end.

(** [parseInt(s)] with no radix argument. *)
Definition parseInt (s : string) : number :=
  let '(negative, s1) := strip_sign (trimStart s) in
  let '(radix, s2) := strip_hex s1 in
  match digits radix s2 false 0 with
  | None => NaN
  | Some m => to_double negative m
  end.

End JS.

(** ** The controller *)

Module Registry.
Import JS.

(** *** Exceptions

    Every handler body sits in a [try] block.  The only exception the
    bodies can raise is the [TypeError] of calling a string method on a
    value that is not a string. *)

Inductive completion (A : Type) :=
  | Normal (a : A)
  | Throw.
Arguments Normal {A} a.
Arguments Throw {A}.

#[export] Instance completion_ret : MRet completion := @Normal.
#[export] Instance completion_bind : MBind completion :=
  fun A B f m => match m with Normal a => f a | Throw => Throw end.

(** [try { body } catch (error) { handler }] *)
Definition try_catch {A} (body : completion A) (handler : A) : A :=
  match body with Normal a => a | Throw => handler end.

(** [v.toLowerCase()] and [v.trim()]. *)
Definition call_toLowerCase (v : value) : completion string :=
  match v with VStr s => Normal (toLowerCase s) | _ => Throw end.

Definition call_trim (v : value) : completion string :=
  match v with VStr s => Normal (trim s) | _ => Throw end.

(** [Array.prototype.find] with a callback that may throw. *)
Fixpoint find {A} (callback : A -> completion bool) (l : list A)
  : completion (option A) :=
  match l with
  | [] => Normal None
  | x :: rest =>
      b ← callback x;
      if b : bool then Normal (Some x) else find callback rest
  end.

(** [Array.prototype.findIndex]; [None] stands for [-1]. *)
Fixpoint findIndex {A} (callback : A -> bool) (l : list A) : option nat :=
  match l with
  | [] => None
  | x :: rest =>
      if callback x then Some O else S <$> findIndex callback rest
  end.

(** *** Responses *)

Record response := Response {
  status : Z;
  success : bool;
  error : option string;
  data : option value
}.

Definition failure (code : Z) (err : string) : response :=
  Response code false (Some err) None.

Definition ok (code : Z) (d : value) : response :=
  Response code true None (Some d).

(** The object literal the handlers call [sanitizedUser]. *)
Definition sanitizedUser (user : obj) : obj :=
  literal [("id", get user "id");
           ("username", get user "username");
           ("email", get user "email");
           ("role", get user "role");
           ("createdAt", get user "createdAt")].

(** *** State *)

Abbreviation store := (list obj).

(** [let users = [ {...} ]], evaluated when the module is loaded at
    time [t0]. *)
Definition initial_users (t0 : string) : store :=
  [literal [("id", VNum (Fin 1));
            ("username", VStr "admin");
            ("email", VStr "admin@company.com");
            ("role", VStr "admin");
            ("createdAt", VStr t0)]].

(** [u => u.id === userId] *)
Definition has_id (userId : number) (u : obj) : bool :=
  strict_eq_num (get u "id") userId.

(** *** Handlers *)

Definition getAllUsers (users : store) : response * store :=
  (ok 200 (VArr (map (fun user => VObj (sanitizedUser user)) users)), users).

Definition getUserById (id : string) (users : store) : response * store :=
  let userId := parseInt id in
  if isNaN userId then (failure 400 "Invalid user ID", users)
  else
    match List.find (has_id userId) users with
    | None => (failure 404 "User not found", users)
    | Some user => (ok 200 (VObj (sanitizedUser user)), users)
    end.

(** The callback of [users.find] in [createUser]; [||] evaluates its
    right operand only when the left one is false. *)
Definition already_registered (username email : value) (u : obj)
  : completion bool :=
  a ← call_toLowerCase (get u "username");
  b ← call_toLowerCase username;
  if String.eqb a b then Normal true
  else
    c ← call_toLowerCase (get u "email");
    d ← call_toLowerCase email;
    Normal (String.eqb c d).

Definition createUser_try (now : string) (body : obj) (users : store)
  : completion (response * store) :=
  let username := get body "username" in
  let email := get body "email" in
  let password := get body "password" in
  let role := match get body "role" with VUndef => VStr "user" | v => v end in
  if negb (truthy username) || negb (truthy email) || negb (truthy password)
  then Normal (failure 400 "Validation failed", users)
  else
    existingUser ← find (already_registered username email) users;
    match existingUser with
    | Some _ => Normal (failure 409 "User already exists", users)
    | None =>
        trimmed_username ← call_trim username;
        trimmed_email ← call_trim email;
        let newUser :=
          literal [("id", VNum (Fin (Z.of_nat (length users) + 1)));
                   ("username", VStr trimmed_username);
                   ("email", VStr (toLowerCase trimmed_email));
                   ("role", role);
                   ("createdAt", VStr now)] in
        Normal (ok 201 (VObj (sanitizedUser newUser)), (users ++ [newUser])%list)
    end.

Definition createUser (now : string) (body : obj) (users : store)
  : response * store :=
  try_catch (createUser_try now body users)
            (failure 500 "Failed to create user", users).

(** [{...users[userIndex], ...updates, id: userId, updatedAt: now}];
    an index outside the array reads [undefined], which spreads to
    nothing. *)
Definition updatedUser (now : string) (userId : number) (updates : obj)
  (users : store) (userIndex : nat) : obj :=
  <["updatedAt" := VStr now]>
    (<["id" := VNum userId]>
       (spread (default ∅ (users !! userIndex)) updates)).

Definition updateUser (now : string) (id : string) (updates : obj)
  (users : store) : response * store :=
  let userId := parseInt id in
  if isNaN userId then (failure 400 "Invalid user ID", users)
  else
    match findIndex (has_id userId) users with
    | None => (failure 404 "User not found", users)
    | Some userIndex =>
        let updated := updatedUser now userId updates users userIndex in
        (ok 200 (VObj (literal [("id", get updated "id");
                                ("username", get updated "username");
                                ("email", get updated "email");
                                ("role", get updated "role");
                                ("createdAt", get updated "createdAt");
                                ("updatedAt", get updated "updatedAt")])),
         <[userIndex := updated]> users)
    end.

Definition deleteUser (id : string) (users : store) : response * store :=
  let userId := parseInt id in
  if isNaN userId then (failure 400 "Invalid user ID", users)
  else
    match findIndex (has_id userId) users with
    | None => (failure 404 "User not found", users)
    | Some userIndex =>
        let deletedUser := default ∅ (users !! userIndex) in
        (ok 200 (VObj (literal [("id", get deletedUser "id");
                                ("username", get deletedUser "username")])),
         delete userIndex users)
    end.

(** *** Requests and runs *)

Inductive request :=
  | GetAll
  | GetById (id : string)
  | Create (body : obj)
  | Update (id : string) (updates : obj)
  | Delete (id : string).

(** One request served at time [now]. *)
Definition handle (now : string) (r : request) (users : store)
  : response * store :=
  match r with
  | GetAll => getAllUsers users
  | GetById id => getUserById id users
  | Create body => createUser now body users
  | Update id updates => updateUser now id updates users
  | Delete id => deleteUser id users
  end.

(** A sequence of timed requests, served in order; the responses are
    returned in the same order. *)
Fixpoint run (reqs : list (string * request)) (users : store)
  : list response * store :=
  match reqs with
  | [] => ([], users)
  | (now, r) :: rest =>
      let '(resp, users1) := handle now r users in
      let '(resps, users2) := run rest users1 in
      (resp :: resps, users2)
  end.

(** States a process started at time [t0] can be in after serving
    requests that all satisfy [allowed]. *)
Inductive reachable_by (allowed : request -> Prop) (t0 : string)
  : store -> Prop :=
  | reachable_initial : reachable_by allowed t0 (initial_users t0)
  | reachable_handle now r users :
      allowed r ->
      reachable_by allowed t0 users ->
      reachable_by allowed t0 (snd (handle now r users)).

(** States the process can be in. *)
Definition reachable : string -> store -> Prop :=
  reachable_by (fun _ => True).

End Registry.

(** * Vocabulary of the statements *)

Import JS Registry.

(** The five fields of the public view of a record. *)
Definition public_fields : gset string :=
  {["id"; "username"; "email"; "role"; "createdAt"]}.

(** The fields [update] answers with. *)
Definition updated_fields : gset string := public_fields ∪ {["updatedAt"]}.

(** [v] is an object whose own properties are exactly [fields]. *)
Definition projection_of (fields : gset string) (v : value) : Prop :=
  exists o : obj, v = VObj o /\ dom o = fields.

(** What the [data] member of a success response looks like. *)
Definition data_shape (r : request) (d : value) : Prop :=
  match r with
  | GetAll => exists items, d = VArr items /\ Forall (projection_of public_fields) items
  | GetById _ | Create _ => projection_of public_fields d
  | Update _ _ => projection_of updated_fields d
  | Delete _ => projection_of {["id"; "username"]} d
  end.

(** [v] is an object with a property [k], or an array holding one. *)
Definition has_field (k : string) (v : value) : Prop :=
  match v with
  | VObj o => k ∈ dom o
  | VArr items =>
      Exists (fun x => match x with VObj o => k ∈ dom o | _ => False end) items
  | _ => False
  end.

(** [role = 'user'] in the destructuring pattern of [createUser]. *)
Definition role_or_default (body : obj) : value :=
  match get body "role" with VUndef => VStr "user" | v => v end.

(** The record [createUser] builds from the strings [username] and
    [email] when the collection holds [n] records. *)
Definition new_record (now : string) (n : nat) (username email : string)
  (role : value) : obj :=
  literal [("id", VNum (Fin (Z.of_nat n + 1)));
           ("username", VStr (trim username));
           ("email", VStr (toLowerCase (trim email)));
           ("role", role);
           ("createdAt", VStr now)].

(** [v] is a string equal to [s] up to letter case. *)
Definition ci_equal (v : value) (s : string) : bool :=
  match v with
  | VStr t => String.eqb (toLowerCase t) (toLowerCase s)
  | _ => false
  end.

(** The record [u] matches the supplied [username] or [email]
    case-insensitively. *)
Definition matches_ci (username email : string) (u : obj) : bool :=
  ci_equal (get u "username") username || ci_equal (get u "email") email.

(** Both names of the record are strings. *)
Definition string_named (u : obj) : Prop :=
  exists a b : string, get u "username" = VStr a /\ get u "email" = VStr b.

(** Two values are strings equal up to letter case. *)
Definition same_ci (a b : value) : bool :=
  match b with
  | VStr t => ci_equal a t
  | _ => false
  end.

(** No two records of the collection share a case-insensitive [field]. *)
Definition unique_ci (field : string) (users : store) : Prop :=
  forall (i j : nat) (u v : obj),
    i <> j -> users !! i = Some u -> users !! j = Some v ->
    same_ci (get u field) (get v field) = false.

(** The case-folded name a record is compared by. *)
Definition ci_key (field : string) (u : obj) : option string :=
  match get u field with
  | VStr s => Some (toLowerCase s)
  | _ => None
  end.

(** Requests that cannot bring a second copy of a name in: creates whose
    names carry no surrounding white space, and updates that name
    neither [username] nor [email]. *)
Definition keeps_names (r : request) : Prop :=
  match r with
  | Create body =>
      (forall s, get body "username" = VStr s -> trim s = s)
      /\ (forall s, get body "email" = VStr s -> trim s = s)
  | Update _ updates =>
      updates !! "username" = None /\ updates !! "email" = None
  | _ => True
  end.

Definition names_invariant (users : store) : Prop :=
  Forall string_named users
  /\ NoDup (ci_key "username" <$> users)
  /\ NoDup (ci_key "email" <$> users).

Definition is_digit (c : ascii) : bool := between 48 57 (code c).

Fixpoint all_digits (s : string) : bool :=
  match s with
  | EmptyString => true
  | String c r => is_digit c && all_digits r
  end.

Definition decimal (s : string) : bool :=
  negb (String.eqb s "") && all_digits s.

(** The specification's "valid integer": an optional sign followed by
    one or more decimal digits and nothing else. *)
Definition valid_integer (s : string) : bool :=
  match s with
  | String "-" r => decimal r
  | String "+" r => decimal r
  | _ => decimal s
  end.

(** The [id] a success response reports. *)
Definition returned_id (resp : response) : value :=
  match data resp with
  | Some (VObj o) => get o "id"
  | _ => VUndef
  end.

(** No two records of the collection have the same [id]. *)
Definition unique_ids (users : store) : Prop :=
  forall (i j : nat) (u v : obj) (n : number),
    users !! i = Some u -> users !! j = Some v ->
    has_id n u = true -> has_id n v = true -> i = j.

(** The statuses each handler can answer with. *)
Definition possible_statuses (r : request) : list Z :=
  match r with
  | GetAll => [200]
  | GetById _ | Update _ _ | Delete _ => [200; 400; 404]
  | Create _ => [201; 400; 409; 500]
  end.

(** The three fields [createUser] requires are all truthy. *)
Definition required_present (body : obj) : bool :=
  truthy (get body "username") && truthy (get body "email")
  && truthy (get body "password").

Definition is_string (v : value) : bool :=
  match v with VStr _ => true | _ => false end.

(** The sequence of [id] values held by the collection. *)
Definition ids (users : store) : list value :=
  (fun u => get u "id") <$> users.

(** The record at position [i] has id [i + 1]. *)
Definition sequential_ids (users : store) : Prop :=
  forall (i : nat) (u : obj),
    users !! i = Some u -> get u "id" = VNum (Fin (Z.of_nat i + 1)).

Definition no_delete (r : request) : Prop :=
  match r with Delete _ => False | _ => True end.

Definition not_create (r : request) : Prop :=
  match r with Create _ => False | _ => True end.

(** Updates that give [username] and [email] string values only. *)
Definition string_updates (r : request) : Prop :=
  match r with
  | Update _ updates =>
      forall k v, k = "username" \/ k = "email" ->
        updates !! k = Some v -> is_string v = true
  | _ => True
  end.

(** The change in the number of records a request brings about. *)
Definition growth (r : request) (resp : response) : Z :=
  match r with
  | Create _ => if success resp then 1 else 0
  | Delete _ => if success resp then -1 else 0
  | _ => 0
  end.

(** Every code unit of the string is white space. *)
Fixpoint all_space (s : string) : bool :=
  match s with
  | EmptyString => true
  | String c r => is_space c && all_space r
  end.

(** The string is empty or starts with a code unit that is not white
    space. *)
Definition starts_clean (s : string) : Prop :=
  match s with
  | EmptyString => True
  | String c _ => is_space c = false
  end.

Definition no_update (r : request) : Prop :=
  match r with Update _ _ => False | _ => True end.

(** *** Words of the specification about strings *)

(** The white-space code units below U+0100, by code point: TAB, LF,
    VT, FF, CR, SP and NBSP. *)
Definition white_space (c : ascii) : bool :=
  existsb (Z.eqb (code c)) [9; 10; 11; 12; 13; 32; 160].

Fixpoint all_white (s : string) : bool :=
  match s with
  | EmptyString => true
  | String c r => white_space c && all_white r
  end.

Definition first_char (s : string) : option ascii :=
  match s with
  | EmptyString => None
  | String c _ => Some c
  end.

Fixpoint last_char (s : string) : option ascii :=
  match s with
  | EmptyString => None
  | String c EmptyString => Some c
  | String _ r => last_char r
  end.

(** The string neither starts nor ends with white space. *)
Definition clean_edges (t : string) : bool :=
  match first_char t, last_char t with
  | Some a, Some b => negb (white_space a) && negb (white_space b)
  | _, _ => true
  end.

(** [t] is [s] without its surrounding white space: [s] is [t] between
    two runs of white space, and [t] has none at either end. *)
Definition trimmed_of (s t : string) : Prop :=
  exists l r : string,
    s = l ++ t ++ r
    /\ all_white l = true /\ all_white r = true /\ clean_edges t = true.

(** The capital letters below U+0100: A to Z, and U+00C0 to U+00DE
    without the multiplication sign U+00D7. *)
Definition capital (c : ascii) : bool :=
  let n := code c in
  (Z.leb 65 n && Z.leb n 90) || (Z.leb 192 n && Z.leb n 214)
  || (Z.leb 216 n && Z.leb n 222).

(** [t] is [s] with every capital letter replaced by the small letter,
    32 code points above it, and every other code unit kept. *)
Fixpoint lowered_of (s t : string) : bool :=
  match s, t with
  | EmptyString, EmptyString => true
  | String a s', String b t' =>
      (if capital a then Z.eqb (code b) (code a + 32) else Ascii.eqb b a)
      && lowered_of s' t'
  | _, _ => false
  end.

Fixpoint no_capital (s : string) : bool :=
  match s with
  | EmptyString => true
  | String c r => negb (capital c) && no_capital r
  end.

(** * Sample requests and collections *)

Definition alice : obj :=
  literal [("username", VStr "alice"); ("email", VStr "A@X.com");
           ("password", VStr "p")].

Definition second_admin : obj :=
  literal [("username", VStr "AdMiN"); ("email", VStr "other@company.com");
           ("password", VStr "p")].

Definition shouting_alice : obj :=
  literal [("username", VStr "ALICE"); ("email", VStr "alice@y.org");
           ("password", VStr "q")].

Definition bob : obj :=
  literal [("username", VStr "bob"); ("email", VStr "bob@x.com");
           ("password", VStr "p")].

Definition bob_again : obj :=
  literal [("username", VStr "bob"); ("email", VStr "z@x.com");
           ("password", VStr "p")].

(** The collection after bob registers and an update stores the number
    5 as the administrator's [username]. *)
Definition numeric_username : store :=
  snd (run [("t1", Create bob);
            ("t2", Update "1" (literal [("username", VNum (Fin 5))]))]
           (initial_users "t0")).

Definition padded_Bob : obj :=
  literal [("username", VStr " Bob"); ("email", VStr "b@x.com");
           ("password", VStr "p")].

Definition padded_bob : obj :=
  literal [("username", VStr " bob"); ("email", VStr "c@x.com");
           ("password", VStr "p")].

Definition promote : obj := literal [("role", VStr "admin")].

Definition backdate : obj := literal [("createdAt", VStr "1970")].

Definition inject_password : obj := literal [("password", VStr "hunter2")].

Definition restamp : obj := literal [("updatedAt", VStr "never")].

Definition rename_to_Admin : obj := literal [("username", VStr "Admin")].

(** The collection after bob registers and is then renamed to [Admin]. *)
Definition two_admins : store :=
  snd (run [("t1", Create bob); ("t2", Update "2" rename_to_Admin)]
           (initial_users "t0")).

Definition padded_admin : obj :=
  literal [("username", VStr " admin"); ("email", VStr "x@y.z");
           ("password", VStr "p")].

(** The collection after [" admin"] registers. *)
Definition trimmed_admins : store :=
  snd (run [("t1", Create padded_admin)] (initial_users "t0")).

Definition carol : obj :=
  literal [("username", VStr "carol"); ("email", VStr "carol@x.com");
           ("password", VStr "p")].

(** Two registrations, the removal of the first of them, and a third
    registration. *)
Definition reuse_requests : list (string * request) :=
  [("t1", Create bob); ("t2", Create alice);
   ("t3", Delete "2"); ("t4", Create carol)].

Definition numeric_name : obj :=
  literal [("username", VNum (Fin 5)); ("email", VStr "five@x.com");
           ("password", VStr "p")].

Definition dave : obj :=
  literal [("username", VStr "  Dave "); ("email", VStr " Dave@X.com ");
           ("password", VStr "p"); ("role", VStr "auditor")].

(** * Properties *)

(** ** Objects and their fields *)

Ltac lookup_fields :=
  repeat (rewrite lookup_insert_eq || (rewrite lookup_insert_ne by done)
          || rewrite lookup_empty).

Ltac unfold_literals :=
  unfold sanitizedUser, updatedUser, initial_users, spread, literal, get in *;
  simpl list_to_map in *.

Lemma dom_sanitizedUser (user : obj) : dom (sanitizedUser user) = public_fields.
Proof.
  unfold_literals. rewrite !dom_insert_L, dom_empty_L.
  unfold public_fields. set_solver.
Qed.

Lemma get_sanitizedUser (user : obj) (k : string) :
  k ∈ public_fields -> get (sanitizedUser user) k = get user k.
Proof.
  unfold public_fields. rewrite !elem_of_union, !elem_of_singleton.
  intros Hk. unfold_literals.
  destruct Hk as [[[[-> | ->] | ->] | ->] | ->]; by lookup_fields.
Qed.

Lemma password_not_public : "password" ∉ updated_fields.
Proof. unfold updated_fields, public_fields. set_solver. Qed.

Lemma projection_lacks (fields : gset string) (k : string) (v : value) :
  k ∉ fields -> projection_of fields v -> ~ has_field k v.
Proof. intros Hk (o & -> & Hdom). simpl. by rewrite Hdom. Qed.

(** Every success response has the shape of its handler's literal. *)
Lemma handle_data_shape (now : string) (r : request) (users : store) :
  success (fst (handle now r users)) = true ->
  exists d, data (fst (handle now r users)) = Some d /\ data_shape r d.
Proof.
  destruct r as [| id | body | id updates | id]; simpl.
  - intros _. eexists; split; [reflexivity |].
    eexists; split; [reflexivity |].
    apply Forall_fmap, Forall_true. intros user.
    eexists; split; [reflexivity | apply dom_sanitizedUser].
  - unfold getUserById. destruct (isNaN _); [done |].
    destruct (List.find _ _); [| done]. intros _.
    eexists; split; [reflexivity |].
    eexists; split; [reflexivity | apply dom_sanitizedUser].
  - unfold createUser, createUser_try, try_catch, mbind, completion_bind.
    destruct (_ || _); [done |].
    destruct (find _ _) as [[existing |] |]; simpl; try done.
    destruct (call_trim _); simpl; [| done].
    destruct (call_trim _); simpl; [| done]. intros _.
    eexists; split; [reflexivity |].
    eexists; split; [reflexivity | apply dom_sanitizedUser].
  - unfold updateUser. destruct (isNaN _); [done |].
    destruct (findIndex _ _); [| done]. intros _.
    eexists; split; [reflexivity |].
    eexists; split; [reflexivity |].
    unfold literal; simpl. rewrite !dom_insert_L, dom_empty_L.
    unfold updated_fields, public_fields. set_solver.
  - unfold deleteUser. destruct (isNaN _); [done |].
    destruct (findIndex _ _); [| done]. intros _.
    eexists; split; [reflexivity |].
    eexists; split; [reflexivity |].
    unfold literal; simpl. rewrite !dom_insert_L, dom_empty_L. set_solver.
Qed.

Lemma data_shape_within (r : request) (d : value) (k : string) :
  k ∉ updated_fields -> data_shape r d -> ~ has_field k d.
Proof.
  intros Hk. assert (k ∉ public_fields) as Hp.
  { unfold updated_fields in Hk. set_solver. }
  destruct r; simpl.
  - intros (items & -> & Hall). simpl. rewrite Exists_exists.
    intros (x & Hx & Hkx). rewrite Forall_forall in Hall.
    destruct (Hall x Hx) as (o & -> & Hdom). by rewrite Hdom in Hkx.
  - by apply projection_lacks.
  - by apply projection_lacks.
  - by apply projection_lacks.
  - apply projection_lacks. unfold updated_fields, public_fields in Hk. set_solver.
Qed.

(** C8: whatever the collection and the request, a success response
    carries data built from the fields [id], [username], [email], [role]
    and [createdAt] only (with [updatedAt] for update, and [id] and
    [username] alone for delete), and so has no [password] field. *)
Theorem success_response_has_no_password (now : string) (r : request)
  (users : store) :
  success (fst (handle now r users)) = true ->
  exists d, data (fst (handle now r users)) = Some d
            /\ data_shape r d
            /\ ~ has_field "password" d.
Proof.
  intros Hok. destruct (handle_data_shape now r users Hok) as (d & Hd & Hshape).
  exists d. split; [done |]. split; [done |].
  eapply data_shape_within; [apply password_not_public | done].
Qed.

Lemma success_response_has_no_password_witness :
  success (fst (handle "t1" GetAll (initial_users "t0"))) = true
  /\ exists d, data (fst (handle "t1" GetAll (initial_users "t0"))) = Some d
               /\ data_shape GetAll d
               /\ ~ has_field "password" d.
Proof.
  split; [reflexivity |].
  apply (success_response_has_no_password "t1" GetAll (initial_users "t0")).
  reflexivity.
Defined.

(** ** Facts about the string methods *)

Lemma lower_char_idem (c : ascii) : lower_char (lower_char c) = lower_char c.
Proof. by destruct c as [[] [] [] [] [] [] [] []]. Qed.

Lemma toLowerCase_idem (s : string) :
  toLowerCase (toLowerCase s) = toLowerCase s.
Proof. induction s as [| c r IH]; simpl; [done |]. by rewrite lower_char_idem, IH. Qed.

Lemma trimStart_clean (s : string) : starts_clean (trimStart s).
Proof.
  induction s as [| c r IH]; simpl; [done |].
  destruct (is_space c) eqn:Hc; [done | exact Hc].
Qed.

Lemma trimStart_of_clean (s : string) : starts_clean s -> trimStart s = s.
Proof. destruct s as [| c r]; simpl; [done |]. by intros ->. Qed.

Lemma trimEnd_clean (s : string) : starts_clean s -> starts_clean (trimEnd s).
Proof.
  destruct s as [| c r]; simpl; [done |]. intros Hc.
  destruct (trimEnd r); simpl; by rewrite ?Hc.
Qed.

Lemma trimEnd_idem (s : string) : trimEnd (trimEnd s) = trimEnd s.
Proof.
  induction s as [| c r IH]; simpl; [done |].
  destruct (trimEnd r) as [| c' r'] eqn:Hr.
  - destruct (is_space c) eqn:Hc; simpl; [done | by rewrite Hc].
  - cbn [trimEnd] in *. by rewrite IH.
Qed.

Lemma trim_idem (s : string) : trim (trim s) = trim s.
Proof.
  unfold trim.
  rewrite (trimStart_of_clean (trimEnd (trimStart s)))
    by apply trimEnd_clean, trimStart_clean.
  apply trimEnd_idem.
Qed.

Lemma is_space_lower_char (c : ascii) : is_space (lower_char c) = is_space c.
Proof. by destruct c as [[] [] [] [] [] [] [] []]. Qed.

Lemma trimStart_toLowerCase (s : string) :
  trimStart (toLowerCase s) = toLowerCase (trimStart s).
Proof.
  induction s as [| c r IH]; simpl; [done |].
  rewrite is_space_lower_char. by destruct (is_space c).
Qed.

Lemma trimEnd_toLowerCase (s : string) :
  trimEnd (toLowerCase s) = toLowerCase (trimEnd s).
Proof.
  induction s as [| c r IH]; simpl; [done |].
  rewrite IH, is_space_lower_char.
  destruct (trimEnd r); simpl; [by destruct (is_space c) | done].
Qed.

Lemma trim_toLowerCase (s : string) :
  trim (toLowerCase s) = toLowerCase (trim s).
Proof. unfold trim. by rewrite trimStart_toLowerCase, trimEnd_toLowerCase. Qed.

Lemma is_space_white (c : ascii) : is_space c = white_space c.
Proof. by destruct c as [[] [] [] [] [] [] [] []]. Qed.

Lemma append_cons (c : ascii) (s t : string) :
  String c s ++ t = String c (s ++ t).
Proof. reflexivity. Qed.

Lemma append_nil (t : string) : "" ++ t = t.
Proof. reflexivity. Qed.

(** [trimStart] removes a run of white space from the front. *)
Lemma trimStart_split (s : string) :
  exists l, s = l ++ trimStart s /\ all_white l = true.
Proof.
  induction s as [| c r (l & Hr & Hl)]; simpl; [by exists "" |].
  destruct (is_space c) eqn:Hc; [| by exists ""].
  exists (String c l). rewrite append_cons, <- Hr. split; [done |].
  simpl. by rewrite <- is_space_white, Hc.
Qed.

(** [trimEnd] removes a run of white space from the back. *)
Lemma trimEnd_split (s : string) :
  exists r, s = trimEnd s ++ r /\ all_white r = true.
Proof.
  induction s as [| c s (r & Hs & Hr)]; simpl; [by exists "" |].
  destruct (trimEnd s) as [| c' s'] eqn:Hend.
  - rewrite append_nil in Hs. subst r. destruct (is_space c) eqn:Hc.
    + exists (String c s). split; [done |].
      simpl. by rewrite <- is_space_white, Hc.
    + by exists s.
  - exists r. by rewrite append_cons, <- Hs.
Qed.

Lemma trimEnd_last (s : string) (c : ascii) :
  last_char (trimEnd s) = Some c -> white_space c = false.
Proof.
  induction s as [| a s IH]; simpl; [done |].
  destruct (trimEnd s) as [| c' s'] eqn:Hend.
  - destruct (is_space a) eqn:Ha; simpl; [done |].
    intros [= <-]. by rewrite <- is_space_white.
  - exact IH.
Qed.

Lemma clean_edges_trim (s : string) : clean_edges (trim s) = true.
Proof.
  unfold clean_edges.
  destruct (first_char (trim s)) as [a |] eqn:Hfirst; [| done].
  destruct (last_char (trim s)) as [b |] eqn:Hlast; [| done].
  rewrite (trimEnd_last _ _ Hlast).
  pose proof (trimEnd_clean _ (trimStart_clean s)) as Hclean.
  fold (trim s) in Hclean. destruct (trim s) as [| c r]; [done |].
  simpl in Hfirst, Hclean. injection Hfirst as <-.
  by rewrite <- is_space_white, Hclean.
Qed.

(** [trim] removes the surrounding white space and nothing else. *)
Lemma trim_spec (s : string) : trimmed_of s (trim s).
Proof.
  destruct (trimStart_split s) as (l & Hl & Hwl).
  destruct (trimEnd_split (trimStart s)) as (r & Hr & Hwr).
  exists l, r. split_and!; [| done | done | apply clean_edges_trim].
  unfold trim. by rewrite <- Hr.
Qed.

Lemma lower_char_spec (c : ascii) :
  (if capital c then Z.eqb (code (lower_char c)) (code c + 32)
   else Ascii.eqb (lower_char c) c) = true
  /\ capital (lower_char c) = false.
Proof. by destruct c as [[] [] [] [] [] [] [] []]. Qed.

(** [toLowerCase] replaces the capital letters and nothing else, and
    leaves no capital letter. *)
Lemma toLowerCase_spec (s : string) :
  lowered_of s (toLowerCase s) = true /\ no_capital (toLowerCase s) = true.
Proof.
  induction s as [| c r [IH1 IH2]]; simpl; [done |].
  destruct (lower_char_spec c) as [-> ->]. by rewrite IH1, IH2.
Qed.

(** ** Create *)

Ltac run_completion :=
  unfold createUser, createUser_try, try_catch, mbind, completion_bind,
    mret, completion_ret in *.

(** The only way [createUser] answers 201. *)
Lemma createUser_created (now : string) (body : obj) (users : store) :
  status (fst (createUser now body users)) = 201 ->
  exists username email,
    get body "username" = VStr username
    /\ get body "email" = VStr email
    /\ username <> "" /\ email <> ""
    /\ truthy (get body "password") = true
    /\ find (already_registered (VStr username) (VStr email)) users = Normal None
    /\ createUser now body users =
         let newUser := new_record now (length users) username email
                          (role_or_default body) in
         (ok 201 (VObj (sanitizedUser newUser)), (users ++ [newUser])%list).
Proof.
  run_completion.
  destruct (truthy (get body "username")) eqn:Hu; [| done].
  destruct (truthy (get body "email")) eqn:He; [| done].
  destruct (truthy (get body "password")) eqn:Hp; [| done]. simpl.
  destruct (find _ users) as [[existing |] |] eqn:Hfind; try done.
  destruct (get body "username") as [| | | | username | |] eqn:Hname; try done.
  destruct (get body "email") as [| | | | email | |] eqn:Hmail; try done.
  simpl. intros _. exists username, email.
  repeat split; try done.
  - intros ->. done.
  - intros ->. done.
Qed.

(** Any other answer of [createUser] leaves the collection as it was. *)
Lemma createUser_unchanged (now : string) (body : obj) (users : store) :
  status (fst (createUser now body users)) <> 201 ->
  snd (createUser now body users) = users.
Proof.
  run_completion.
  destruct (_ || _); [done |].
  destruct (find _ users) as [[existing |] |]; try done.
  destruct (call_trim _); [| done]. simpl.
  destruct (call_trim _); [| done]. simpl. done.
Qed.

Lemma get_new_record (now : string) (n : nat) (username email : string)
  (role : value) :
  let u := new_record now n username email role in
  get u "id" = VNum (Fin (Z.of_nat n + 1))
  /\ get u "username" = VStr (trim username)
  /\ get u "email" = VStr (toLowerCase (trim email))
  /\ get u "role" = role
  /\ get u "createdAt" = VStr now.
Proof. unfold new_record. unfold_literals. repeat split; by lookup_fields. Qed.

(** C5: a create that answers 201 was given a string [username] and a
    string [email]; it appends one record at the end of the collection,
    whose [username] is the input without its surrounding white space,
    whose [email] is the input without its surrounding white space and
    with every capital letter made small, whose [role] is the supplied
    one or ["user"] when the body has none, and whose [createdAt] is the
    current time; the response data is the public projection of that
    record.  Creating alice with email ["A@X.com"] on a fresh process
    stores ["a@x.com"] and role ["user"]; creating ["  Dave "] with
    email [" Dave@X.com "] stores ["Dave"] and ["dave@x.com"]. *)
Theorem create_stores_normalised_record :
  (forall (now : string) (body : obj) (users : store),
     status (fst (createUser now body users)) = 201 ->
     exists (username email stored_username stored_email : string)
            (newUser : obj),
       get body "username" = VStr username
       /\ get body "email" = VStr email
       /\ snd (createUser now body users) = (users ++ [newUser])%list
       /\ get newUser "username" = VStr stored_username
       /\ stored_username = trim username
       /\ trimmed_of username stored_username
       /\ get newUser "email" = VStr stored_email
       /\ stored_email = toLowerCase (trim email)
       /\ (exists t, trimmed_of email t /\ lowered_of t stored_email = true)
       /\ no_capital stored_email = true
       /\ (body !! "role" = None -> get newUser "role" = VStr "user")
       /\ (forall v, body !! "role" = Some v -> v <> VUndef ->
             get newUser "role" = v)
       /\ get newUser "createdAt" = VStr now
       /\ data (fst (createUser now body users))
          = Some (VObj (sanitizedUser newUser))
       /\ dom (sanitizedUser newUser) = public_fields
       /\ (forall k, k ∈ public_fields ->
             get (sanitizedUser newUser) k = get newUser k))
  /\ (forall t0 now : string,
        exists newUser : obj,
          status (fst (createUser now alice (initial_users t0))) = 201
          /\ snd (createUser now alice (initial_users t0))
             = (initial_users t0 ++ [newUser])%list
          /\ get newUser "email" = VStr "a@x.com"
          /\ get newUser "role" = VStr "user")
  /\ (forall t0 now : string,
        exists newUser : obj,
          status (fst (createUser now dave (initial_users t0))) = 201
          /\ snd (createUser now dave (initial_users t0))
             = (initial_users t0 ++ [newUser])%list
          /\ get newUser "username" = VStr "Dave"
          /\ get newUser "email" = VStr "dave@x.com"
          /\ get newUser "role" = VStr "auditor").
Proof.
  split_and!.
  - intros now body users H201.
    destruct (createUser_created now body users H201)
      as (username & email & Hu & He & _ & _ & _ & _ & Heq).
    exists username, email, (trim username), (toLowerCase (trim email)),
      (new_record now (length users) username email (role_or_default body)).
    destruct (get_new_record now (length users) username email
                (role_or_default body)) as (_ & Hgu & Hge & Hgr & Hgc).
    rewrite Heq. simpl.
    split_and!; try done; try apply dom_sanitizedUser;
      try apply get_sanitizedUser.
    + apply trim_spec.
    + exists (trim email). split; [apply trim_spec | apply toLowerCase_spec].
    + apply toLowerCase_spec.
    + intros Hnone. rewrite Hgr. unfold role_or_default, get. by rewrite Hnone.
    + intros v Hv Hdef. rewrite Hgr. unfold role_or_default, get.
      rewrite Hv. simpl. by destruct v.
  - intros t0 now.
    exists (new_record now 1 "alice" "A@X.com" (VStr "user")).
    repeat split.
  - intros t0 now.
    exists (new_record now 1 "  Dave " " Dave@X.com " (VStr "auditor")).
    repeat split.
Qed.

Lemma create_stores_normalised_record_witness :
  status (fst (createUser "t1" dave (initial_users "t0"))) = 201
  /\ exists newUser : obj,
       snd (createUser "t1" dave (initial_users "t0"))
       = (initial_users "t0" ++ [newUser])%list
       /\ get newUser "username" = VStr "Dave"
       /\ trimmed_of "  Dave " "Dave"
       /\ get newUser "email" = VStr "dave@x.com".
Proof.
  split; [reflexivity |].
  destruct (proj1 create_stores_normalised_record "t1" dave (initial_users "t0"))
    as (username & email & stored_username & stored_email & newUser
        & H1 & H2 & H3 & H4 & H5 & H6 & H7 & H8 & _);
    [reflexivity |].
  vm_compute in H1, H2. injection H1 as <-. injection H2 as <-.
  subst stored_username stored_email.
  exists newUser. split_and!; [exact H3 | exact H4 | exact H6 | exact H7].
Defined.

(** ** The seeded administrator *)

Lemma get_initial (t0 : string) :
  exists u, initial_users t0 = [u]
    /\ get u "id" = VNum (Fin 1)
    /\ get u "username" = VStr "admin"
    /\ get u "email" = VStr "admin@company.com"
    /\ get u "role" = VStr "admin"
    /\ get u "createdAt" = VStr t0.
Proof. eexists. split; [reflexivity |]. unfold_literals. by lookup_fields. Qed.

Lemma truthy_string (s : string) : s <> "" -> truthy (VStr s) = true.
Proof. intros Hs. simpl. by destruct s. Qed.

Lemma lower_nonempty (s t : string) : toLowerCase s = t -> t <> "" -> s <> "".
Proof. intros <- Ht ->. by apply Ht. Qed.

(** The callback of [find] on a record whose names are strings. *)
Lemma already_registered_strings (username email : string) (u : obj)
  (a b : string) :
  get u "username" = VStr a ->
  get u "email" = VStr b ->
  already_registered (VStr username) (VStr email) u
  = Normal (String.eqb (toLowerCase a) (toLowerCase username)
            || String.eqb (toLowerCase b) (toLowerCase email)).
Proof.
  intros Ha Hb. unfold already_registered. rewrite Ha, Hb. simpl.
  unfold mbind, completion_bind. by destruct (String.eqb _ _).
Qed.

(** When the usernames agree the [email] operand is never evaluated. *)
Lemma already_registered_username (username : string) (email : value)
  (u : obj) (a : string) :
  get u "username" = VStr a ->
  toLowerCase username = toLowerCase a ->
  already_registered (VStr username) email u = Normal true.
Proof.
  intros Ha Hlow. unfold already_registered. rewrite Ha. simpl.
  unfold mbind, completion_bind. by rewrite Hlow, String.eqb_refl.
Qed.

(** C9: a fresh process holds exactly the seeded record with id 1,
    username ["admin"], email ["admin@company.com"] and role ["admin"];
    listAll answers with the one-element list of its projection; and a
    first create (with the three required fields present) fails with
    409 and changes nothing when its username is ["admin"] in any letter
    case, or when its email is ["admin@company.com"]. *)
Theorem fresh_process_has_admin (t0 : string) :
  (exists u, initial_users t0 = [u]
     /\ get u "id" = VNum (Fin 1)
     /\ get u "username" = VStr "admin"
     /\ get u "email" = VStr "admin@company.com"
     /\ get u "role" = VStr "admin"
     /\ fst (getAllUsers (initial_users t0))
        = ok 200 (VArr [VObj (sanitizedUser u)]))
  /\ (forall (now : string) (body : obj) (username : string),
        get body "username" = VStr username ->
        toLowerCase username = "admin" ->
        truthy (get body "email") = true ->
        truthy (get body "password") = true ->
        createUser now body (initial_users t0)
        = (failure 409 "User already exists", initial_users t0))
  /\ (forall (now : string) (body : obj) (username email : string),
        get body "username" = VStr username ->
        username <> "" ->
        get body "email" = VStr email ->
        toLowerCase email = "admin@company.com" ->
        truthy (get body "password") = true ->
        createUser now body (initial_users t0)
        = (failure 409 "User already exists", initial_users t0)).
Proof.
  destruct (get_initial t0) as (u & Hinit & Hid & Hname & Hmail & Hrole & _).
  split_and!.
  - exists u. rewrite Hinit. by split_and!.
  - intros now body username Hu Hlow He Hp. rewrite Hinit. run_completion.
    rewrite Hu, He, Hp, truthy_string by (by eapply lower_nonempty).
    simpl. run_completion.
    by rewrite (already_registered_username _ _ _ "admin" Hname Hlow).
  - intros now body username email Hu Hne He Hlow Hp. rewrite Hinit.
    run_completion.
    rewrite Hu, He, Hp, !truthy_string
      by (done || by eapply lower_nonempty).
    simpl. run_completion.
    rewrite (already_registered_strings _ _ _ _ _ Hname Hmail), Hlow.
    simpl. by rewrite orb_true_r.
Qed.

Lemma fresh_process_has_admin_witness :
  get second_admin "username" = VStr "AdMiN"
  /\ toLowerCase "AdMiN" = "admin"
  /\ truthy (get second_admin "email") = true
  /\ truthy (get second_admin "password") = true
  /\ createUser "t1" second_admin (initial_users "t0")
     = (failure 409 "User already exists", initial_users "t0").
Proof.
  do 4 (split; [reflexivity |]).
  apply (proj1 (proj2 (fresh_process_has_admin "t0")) "t1" second_admin "AdMiN");
    reflexivity.
Defined.

(** ** Conflicts *)

Lemma find_string_named (username email : string) (users : store) :
  Forall string_named users ->
  find (already_registered (VStr username) (VStr email)) users
  = Normal (List.find (matches_ci username email) users).
Proof.
  induction 1 as [| u rest (a & b & Ha & Hb) _ IH]; [reflexivity |].
  simpl. rewrite (already_registered_strings _ _ _ _ _ Ha Hb).
  unfold mbind, completion_bind, matches_ci, ci_equal. rewrite Ha, Hb.
  destruct (_ || _); [reflexivity | exact IH].
Qed.

Lemma find_some_of_match {A} (p : A -> bool) (l : list A) (x : A) :
  x ∈ l -> p x = true -> exists y, List.find p l = Some y.
Proof.
  intros Hx Hp. destruct (List.find p l) as [y |] eqn:Hfind; [by exists y |].
  apply list_elem_of_In in Hx.
  pose proof (find_none p l Hfind x Hx) as Hnone. congruence.
Qed.

Lemma string_named_new_record (now : string) (n : nat)
  (username email : string) (role : value) :
  string_named (new_record now n username email role).
Proof.
  destruct (get_new_record now n username email role) as (_ & Hu & He & _).
  by exists (trim username), (toLowerCase (trim email)).
Qed.

(** Create on a collection of records with string names, given string
    inputs: 409 when some record matches, and 201 otherwise. *)
Lemma createUser_string_named (now : string) (body : obj) (users : store)
  (username email : string) :
  get body "username" = VStr username ->
  get body "email" = VStr email ->
  username <> "" -> email <> "" ->
  truthy (get body "password") = true ->
  Forall string_named users ->
  createUser now body users =
    match List.find (matches_ci username email) users with
    | Some _ => (failure 409 "User already exists", users)
    | None =>
        let newUser := new_record now (length users) username email
                         (role_or_default body) in
        (ok 201 (VObj (sanitizedUser newUser)), (users ++ [newUser])%list)
    end.
Proof.
  intros Hu He Hnu Hne Hp Hall. run_completion.
  rewrite Hu, He, Hp, !truthy_string by done. simpl.
  rewrite (find_string_named _ _ _ Hall).
  by destruct (List.find _ _).
Qed.

(** C6, amended: when every stored record has a string [username] and a
    string [email], a create with non-empty string [username] and
    [email] and a password fails with 409 and leaves the collection
    unchanged as soon as some stored record equals the supplied
    [username] or the supplied [email] up to letter case.  In
    particular, after a successful create whose [username] has no
    surrounding white space, a create whose [username] differs from it
    only by letter case fails with 409. *)
Theorem create_conflict_on_string_names :
  (forall (now : string) (body : obj) (users : store)
          (username email : string) (u : obj),
     get body "username" = VStr username ->
     get body "email" = VStr email ->
     username <> "" -> email <> "" ->
     truthy (get body "password") = true ->
     Forall string_named users ->
     u ∈ users ->
     matches_ci username email u = true ->
     createUser now body users
     = (failure 409 "User already exists", users))
  /\ (forall (now1 now2 : string) (body1 body2 : obj) (users : store)
             (username1 username2 email2 : string),
        Forall string_named users ->
        status (fst (createUser now1 body1 users)) = 201 ->
        get body1 "username" = VStr username1 ->
        trim username1 = username1 ->
        get body2 "username" = VStr username2 ->
        toLowerCase username2 = toLowerCase username1 ->
        get body2 "email" = VStr email2 ->
        email2 <> "" ->
        truthy (get body2 "password") = true ->
        createUser now2 body2 (snd (createUser now1 body1 users))
        = (failure 409 "User already exists",
           snd (createUser now1 body1 users))).
Proof.
  assert (forall (now : string) (body : obj) (users : store)
            (username email : string) (u : obj),
     get body "username" = VStr username ->
     get body "email" = VStr email ->
     username <> "" -> email <> "" ->
     truthy (get body "password") = true ->
     Forall string_named users ->
     u ∈ users ->
     matches_ci username email u = true ->
     createUser now body users
     = (failure 409 "User already exists", users)) as Hconflict.
  { intros now body users username email u Hu He Hnu Hne Hp Hall Hin Hm.
    rewrite (createUser_string_named now body users username email) by done.
    by destruct (find_some_of_match _ _ _ Hin Hm) as (y & ->). }
  split; [exact Hconflict |].
  intros now1 now2 body1 body2 users username1 username2 email2
    Hall H201 Hu1 Htrim Hu2 Hlow He2 Hne2 Hp2.
  destruct (createUser_created now1 body1 users H201)
    as (username & email1 & Hu & He1 & Hnu1 & _ & _ & _ & Heq).
  rewrite Hu1 in Hu. injection Hu as <-.
  rewrite Heq. simpl.
  set (newUser := new_record now1 (length users) username1 email1
                    (role_or_default body1)).
  destruct (get_new_record now1 (length users) username1 email1
              (role_or_default body1)) as (_ & Hgu & _).
  apply (Hconflict now2 body2 _ username2 email2 newUser); try done.
  - intros ->. by destruct username1.
  - apply Forall_app. split; [done |].
    apply Forall_singleton, string_named_new_record.
  - set_solver.
  - unfold matches_ci, ci_equal. fold newUser in Hgu. rewrite Hgu, Htrim.
    by rewrite Hlow, String.eqb_refl.
Qed.

Lemma string_named_initial (t0 : string) : Forall string_named (initial_users t0).
Proof.
  destruct (get_initial t0) as (u & -> & _ & Hu & He & _).
  apply Forall_singleton. by exists "admin", "admin@company.com".
Qed.

Lemma create_conflict_on_string_names_witness :
  Forall string_named (initial_users "t0")
  /\ status (fst (createUser "t1" alice (initial_users "t0"))) = 201
  /\ trim "alice" = "alice"
  /\ toLowerCase "ALICE" = toLowerCase "alice"
  /\ createUser "t2" shouting_alice
       (snd (createUser "t1" alice (initial_users "t0")))
     = (failure 409 "User already exists",
        snd (createUser "t1" alice (initial_users "t0"))).
Proof.
  split; [apply string_named_initial |].
  do 3 (split; [reflexivity |]).
  apply (proj2 create_conflict_on_string_names "t1" "t2" alice shouting_alice
           (initial_users "t0") "alice" "ALICE" "alice@y.org");
    try reflexivity; try apply string_named_initial; discriminate.
Defined.

(** *** Runs stay reachable *)

Lemma reachable_run (t0 : string) (reqs : list (string * request))
  (users : store) :
  reachable t0 users -> reachable t0 (snd (run reqs users)).
Proof.
  revert users. induction reqs as [| [now r] rest IH]; intros users Hreach.
  - exact Hreach.
  - simpl. pose proof (reachable_handle _ t0 now r users I Hreach) as Hstep.
    destruct (handle now r users) as [resp users1]. simpl in Hstep.
    specialize (IH users1 Hstep).
    destruct (run rest users1) as [resps users2]. exact IH.
Qed.

(** C6 as stated fails twice.  With a non-string [username] stored by an
    earlier update, the callback of [find] throws before it reaches the
    matching record, and create answers 500.  And two creates whose
    usernames [" Bob"] and [" bob"] differ only by letter case both
    answer 201, because the comparison uses the untrimmed input. *)
Lemma create_conflict_counterexample :
  (reachable "t0" numeric_username
   /\ (exists u, numeric_username !! 1%nat = Some u
                 /\ matches_ci "bob" "z@x.com" u = true)
   /\ status (fst (createUser "t3" bob_again numeric_username)) = 500)
  /\ (toLowerCase " bob" = toLowerCase " Bob"
      /\ status (fst (createUser "t1" padded_Bob (initial_users "t0"))) = 201
      /\ status (fst (createUser "t2" padded_bob
                        (snd (createUser "t1" padded_Bob (initial_users "t0")))))
         = 201).
Proof.
  split_and!.
  - apply reachable_run, reachable_initial.
  - eexists. split; reflexivity.
  - reflexivity.
  - reflexivity.
  - reflexivity.
  - reflexivity.
Qed.

(** ** Searching the array *)

Lemma findIndex_Some {A} (p : A -> bool) (l : list A) (i : nat) :
  findIndex p l = Some i ->
  exists x, l !! i = Some x /\ p x = true
            /\ forall j y, (j < i)%nat -> l !! j = Some y -> p y = false.
Proof.
  revert i. induction l as [| a rest IH]; intros i; simpl; [done |].
  destruct (p a) eqn:Hpa.
  - intros [= <-]. exists a. split_and!; [done | done |]. intros j y Hj. lia.
  - destruct (findIndex p rest) as [k |] eqn:Hk; simpl; [| done].
    intros [= <-]. destruct (IH k eq_refl) as (x & Hx & Hpx & Hbefore).
    exists x. split_and!; [done | done |].
    intros [| j] y Hj; simpl.
    + by intros [= <-].
    + apply Hbefore. lia.
Qed.

Lemma findIndex_None {A} (p : A -> bool) (l : list A) :
  findIndex p l = None -> forall x, x ∈ l -> p x = false.
Proof.
  induction l as [| a rest IH]; simpl; intros Hnone x Hx.
  - by apply elem_of_nil in Hx.
  - destruct (p a) eqn:Hpa; [done |].
    destruct (findIndex p rest) eqn:Hk; [done |].
    apply elem_of_cons in Hx as [-> | Hx]; [done | by apply IH].
Qed.

(** [find] and [findIndex] stop at the same element. *)
Lemma find_findIndex {A} (p : A -> bool) (l : list A) :
  List.find p l = (findIndex p l ≫= fun i => l !! i).
Proof.
  induction l as [| a rest IH]; simpl; [done |].
  destruct (p a); [done |]. rewrite IH.
  by destruct (findIndex p rest).
Qed.

Lemma has_id_value (userId : number) (u : obj) :
  has_id userId u = true -> get u "id" = VNum userId.
Proof.
  unfold has_id, strict_eq_num. destruct (get u "id") as [| | | n | | |]; try done.
  destruct n as [| s | x], userId as [| t | y]; simpl; try done.
  - by intros ->%Bool.eqb_prop.
  - by intros ->%Z.eqb_eq.
Qed.

(** ** Update *)

(** The properties of the merged record. *)
Lemma lookup_updatedUser (now : string) (userId : number) (updates : obj)
  (users : store) (i : nat) (u : obj) (k : string) :
  users !! i = Some u ->
  updatedUser now userId updates users i !! k =
    if decide (k = "updatedAt") then Some (VStr now)
    else if decide (k = "id") then Some (VNum userId)
    else match updates !! k with
         | Some v => Some v
         | None => u !! k
         end.
Proof.
  intros Hi. unfold updatedUser, spread. rewrite Hi. simpl.
  destruct (decide (k = "updatedAt")) as [-> | Hk1]; [by rewrite lookup_insert_eq |].
  rewrite lookup_insert_ne by done.
  destruct (decide (k = "id")) as [-> | Hk2]; [by rewrite lookup_insert_eq |].
  rewrite lookup_insert_ne by done.
  rewrite lookup_union. by destruct (updates !! k), (u !! k).
Qed.

(** An update either changes nothing and does not answer 200, or
    replaces the first record whose [id] equals the parsed identifier. *)
Lemma updateUser_cases (now id : string) (updates : obj) (users : store) :
  (status (fst (updateUser now id updates users)) <> 200
   /\ snd (updateUser now id updates users) = users)
  \/ (exists (i : nat) (u : obj),
        users !! i = Some u
        /\ has_id (parseInt id) u = true
        /\ (forall j v, (j < i)%nat -> users !! j = Some v ->
              has_id (parseInt id) v = false)
        /\ status (fst (updateUser now id updates users)) = 200
        /\ data (fst (updateUser now id updates users))
           = (let updated := updatedUser now (parseInt id) updates users i in
              Some (VObj (literal [("id", get updated "id");
                                   ("username", get updated "username");
                                   ("email", get updated "email");
                                   ("role", get updated "role");
                                   ("createdAt", get updated "createdAt");
                                   ("updatedAt", get updated "updatedAt")])))
        /\ snd (updateUser now id updates users)
           = <[i := updatedUser now (parseInt id) updates users i]> users).
Proof.
  unfold updateUser. destruct (isNaN _); [by left |].
  destruct (findIndex _ users) as [i |] eqn:Hfind; [| by left].
  destruct (findIndex_Some _ _ _ Hfind) as (u & Hu & Hid & Hbefore).
  right. exists i, u. by split_and!.
Qed.




(** Collections with the same [id] values resolve identifiers alike. *)
Lemma findIndex_ids (n : number) (l1 l2 : store) :
  ids l1 = ids l2 -> findIndex (has_id n) l1 = findIndex (has_id n) l2.
Proof.
  revert l2. induction l1 as [| a l1 IH]; intros [| b l2] Hids; try done.
  injection Hids as Hab Hrest. simpl. unfold has_id at 1 3. rewrite Hab.
  destruct (strict_eq_num _ _); [done |]. by rewrite (IH l2 Hrest).
Qed.

Lemma updateUser_found (now id : string) (updates : obj) (users : store)
  (i : nat) :
  isNaN (parseInt id) = false ->
  findIndex (has_id (parseInt id)) users = Some i ->
  updateUser now id updates users =
    (let updated := updatedUser now (parseInt id) updates users i in
     (ok 200 (VObj (literal [("id", get updated "id");
                             ("username", get updated "username");
                             ("email", get updated "email");
                             ("role", get updated "role");
                             ("createdAt", get updated "createdAt");
                             ("updatedAt", get updated "updatedAt")])),
      <[i := updated]> users)).
Proof. intros Hnum Hfind. unfold updateUser. by rewrite Hnum, Hfind. Qed.

Lemma updateUser_not_found (now id : string) (updates : obj) (users : store) :
  isNaN (parseInt id) = true \/ findIndex (has_id (parseInt id)) users = None ->
  snd (updateUser now id updates users) = users.
Proof.
  unfold updateUser. destruct (isNaN _); [done |].
  intros [? | ->]; done.
Qed.

Lemma updateUser_ids (now id : string) (updates : obj) (users : store) :
  ids (snd (updateUser now id updates users)) = ids users.
Proof.
  destruct (updateUser_cases now id updates users)
    as [[_ ->] | (i & u & Hu & Hid & _ & _ & _ & ->)]; [done |].
  unfold ids. rewrite list_fmap_insert. apply list_insert_id.
  rewrite list_lookup_fmap, Hu. simpl. f_equal.
  rewrite (has_id_value _ _ Hid). unfold get.
  by rewrite (lookup_updatedUser _ _ _ _ _ _ _ Hu).
Qed.

Lemma lookup_sanitizedUser (user : obj) (k : string) :
  k ∈ public_fields -> sanitizedUser user !! k = Some (get user k).
Proof.
  unfold public_fields. rewrite !elem_of_union, !elem_of_singleton.
  intros Hk. unfold sanitizedUser, literal. simpl list_to_map.
  destruct Hk as [[[[-> | ->] | ->] | ->] | ->]; by lookup_fields.
Qed.

(** C10, amended: an update that answers 200 copies every key of
    [partialFields] other than [id] and [updatedAt] verbatim into the
    stored record; its response data has exactly the fields [id],
    [username], [email], [role], [createdAt] and [updatedAt]; an
    injected [username], [email], [role] or [createdAt] is shown with
    the injected value by the update response itself and by the getById
    and the listing that follow; and no success response, in any state
    and so in any later one, shows a field outside these six. *)
Theorem update_copies_fields (now id : string) (updates : obj)
  (users : store) :
  status (fst (updateUser now id updates users)) = 200 ->
  (exists (i : nat) (before after d : obj),
     users !! i = Some before
     /\ snd (updateUser now id updates users) = <[i := after]> users
     /\ (forall k v, k <> "id" -> k <> "updatedAt" ->
           updates !! k = Some v -> after !! k = Some v)
     /\ data (fst (updateUser now id updates users)) = Some (VObj d)
     /\ dom d = updated_fields
     /\ (forall k v, k ∈ public_fields -> k <> "id" ->
           updates !! k = Some v ->
           d !! k = Some v
           /\ (exists read : obj,
                 fst (getUserById id (snd (updateUser now id updates users)))
                 = ok 200 (VObj read)
                 /\ read !! k = Some v)
           /\ (exists (items : list value) (entry : obj),
                 fst (getAllUsers (snd (updateUser now id updates users)))
                 = ok 200 (VArr items)
                 /\ items !! i = Some (VObj entry)
                 /\ entry !! k = Some v)))
  /\ (forall (later : string) (r : request) (users' : store) (k : string),
        k ∉ updated_fields ->
        success (fst (handle later r users')) = true ->
        exists d', data (fst (handle later r users')) = Some d'
                   /\ ~ has_field k d').
Proof.
  intros H200. split.
  - destruct (isNaN (parseInt id)) eqn:Hnum.
    { unfold updateUser in H200. by rewrite Hnum in H200. }
    destruct (findIndex (has_id (parseInt id)) users) as [i |] eqn:Hfind.
    2: { unfold updateUser in H200. by rewrite Hnum, Hfind in H200. }
    destruct (findIndex_Some _ _ _ Hfind) as (u & Hu & _ & _).
    pose proof (findIndex_ids (parseInt id) _ _
                  (updateUser_ids now id updates users)) as Hsame.
    rewrite Hfind in Hsame. revert Hsame.
    rewrite (updateUser_found now id updates users i Hnum Hfind). simpl.
    set (after := updatedUser now (parseInt id) updates users i).
    intros Hsame.
    assert (forall k v, k <> "id" -> k <> "updatedAt" ->
              updates !! k = Some v -> after !! k = Some v) as Hcopy.
    { intros k v Hid Hstamp Hk. unfold after.
      rewrite (lookup_updatedUser _ _ _ _ _ _ _ Hu).
      rewrite decide_False by done. rewrite decide_False by done.
      by rewrite Hk. }
    assert (<[i := after]> users !! i = Some after) as Hafter.
    { apply list_lookup_insert_eq. by eapply lookup_lt_Some. }
    eexists i, u, after, _. split_and!; [done | done | exact Hcopy | done | |].
    + unfold literal; simpl. rewrite !dom_insert_L, dom_empty_L.
      unfold updated_fields, public_fields. set_solver.
    + intros k v Hk Hid Hv.
      assert (k <> "updatedAt") as Hstamp.
      { intros ->. unfold public_fields in Hk. set_solver. }
      assert (get after k = v) as Hget.
      { unfold get. by rewrite (Hcopy k v Hid Hstamp Hv). }
      split_and!.
      * unfold public_fields in Hk.
        rewrite !elem_of_union, !elem_of_singleton in Hk.
        unfold literal. simpl list_to_map. rewrite <- Hget.
        destruct Hk as [[[[-> | ->] | ->] | ->] | ->]; by lookup_fields.
      * exists (sanitizedUser after). unfold getUserById.
        rewrite Hnum, find_findIndex, Hsame. simpl. rewrite Hafter. simpl.
        split; [done |]. by rewrite lookup_sanitizedUser, Hget.
      * eexists _, (sanitizedUser after). split_and!; [reflexivity | |].
        -- change (map ?f ?l) with (f <$> l).
           by rewrite list_lookup_fmap, Hafter.
        -- by rewrite lookup_sanitizedUser, Hget.
  - intros later r users' k Hk Hok.
    destruct (handle_data_shape later r users' Hok) as (d' & Hd' & Hshape).
    exists d'. split; [done |]. by eapply data_shape_within.
Qed.

Lemma update_copies_fields_witness :
  status (fst (updateUser "t1" "1" backdate (initial_users "t0"))) = 200
  /\ backdate !! "createdAt" = Some (VStr "1970")
  /\ exists (i : nat) (before after d : obj),
       initial_users "t0" !! i = Some before
       /\ snd (updateUser "t1" "1" backdate (initial_users "t0"))
          = <[i := after]> (initial_users "t0")
       /\ after !! "createdAt" = Some (VStr "1970")
       /\ data (fst (updateUser "t1" "1" backdate (initial_users "t0")))
          = Some (VObj d)
       /\ dom d = updated_fields
       /\ d !! "createdAt" = Some (VStr "1970")
       /\ (exists read : obj,
             fst (getUserById "1"
                    (snd (updateUser "t1" "1" backdate (initial_users "t0"))))
             = ok 200 (VObj read)
             /\ read !! "createdAt" = Some (VStr "1970")).
Proof.
  do 2 (split; [reflexivity |]).
  destruct (proj1 (update_copies_fields "t1" "1" backdate (initial_users "t0")
                     eq_refl))
    as (i & before & after & d & Hbefore & Hstore & Hcopy & Hdata & Hdom
        & Hshown).
  assert (backdate !! "createdAt" = Some (VStr "1970")) as Hkey
    by reflexivity.
  assert ("createdAt" ∈ public_fields) as Hpub
    by (unfold public_fields; set_solver).
  destruct (Hshown "createdAt" (VStr "1970") Hpub) as (Hd & Hread & _);
    [done | exact Hkey |].
  exists i, before, after, d. split_and!; try done.
  by apply Hcopy.
Defined.

(** C10 as stated fails twice: the key [updatedAt] of [partialFields] is
    not copied (the clock overwrites it), and an injected [createdAt]
    does appear in the next getById response. *)
Lemma update_copies_fields_counterexample :
  (restamp !! "updatedAt" = Some (VStr "never")
   /\ status (fst (updateUser "t1" "1" restamp (initial_users "t0"))) = 200
   /\ exists after : obj,
        snd (updateUser "t1" "1" restamp (initial_users "t0")) = [after]
        /\ after !! "updatedAt" = Some (VStr "t1"))
  /\ (backdate !! "createdAt" = Some (VStr "1970")
      /\ exists d : obj,
           data (fst (getUserById "1"
                        (snd (updateUser "t1" "1" backdate (initial_users "t0")))))
           = Some (VObj d)
           /\ d !! "createdAt" = Some (VStr "1970")).
Proof.
  split_and!; try reflexivity.
  - eexists. split; reflexivity.
  - eexists. split; reflexivity.
Qed.

(** ** Uniqueness of names *)

Lemma names_invariant_unique (users : store) :
  names_invariant users ->
  unique_ci "username" users /\ unique_ci "email" users.
Proof.
  intros (Hnamed & Hnames & Hmails).
  assert (forall field, NoDup (ci_key field <$> users) ->
            (forall u, u ∈ users -> exists s, get u field = VStr s) ->
            unique_ci field users) as Hunique.
  { intros field Hnodup Hstr i j u v Hij Hi Hj.
    destruct (Hstr u) as (a & Ha); [by eapply list_elem_of_lookup_2 |].
    destruct (Hstr v) as (b & Hb); [by eapply list_elem_of_lookup_2 |].
    rewrite Ha, Hb. simpl.
    destruct (String.eqb _ _) eqn:Heq; [| done].
    apply String.eqb_eq in Heq. exfalso. apply Hij.
    apply (NoDup_lookup _ i j (Some (toLowerCase a)) Hnodup).
    - rewrite list_lookup_fmap, Hi. simpl. unfold ci_key. by rewrite Ha.
    - rewrite list_lookup_fmap, Hj. simpl. unfold ci_key. by rewrite Hb, Heq. }
  rewrite Forall_forall in Hnamed.
  split; apply Hunique; try done; intros u Hu;
    destruct (Hnamed u Hu) as (a & b & Ha & Hb); eauto.
Qed.

Lemma names_invariant_initial (t0 : string) : names_invariant (initial_users t0).
Proof.
  split; [apply string_named_initial |].
  split; apply NoDup_singleton.
Qed.

Lemma names_invariant_create (now : string) (body : obj) (users : store) :
  keeps_names (Create body) ->
  names_invariant users ->
  names_invariant (snd (createUser now body users)).
Proof.
  intros [Htu Hte] (Hnamed & Hnames & Hmails).
  destruct (decide (status (fst (createUser now body users)) = 201))
    as [H201 | Hfail]; [| by rewrite createUser_unchanged].
  destruct (createUser_created now body users H201)
    as (username & email & Hu & He & _ & _ & _ & Hfind & ->). simpl.
  rewrite find_string_named in Hfind by done. injection Hfind as Hfind.
  set (newUser := new_record _ _ _ _ _).
  destruct (get_new_record now (length users) username email
              (role_or_default body)) as (_ & Hgu & Hge & _).
  fold newUser in Hgu, Hge.
  rewrite (Htu _ Hu) in Hgu. rewrite (Hte _ He) in Hge.
  assert (forall u, u ∈ users ->
            ci_key "username" u <> ci_key "username" newUser
            /\ ci_key "email" u <> ci_key "email" newUser) as Hfresh.
  { intros u Hin. apply list_elem_of_In in Hin.
    pose proof (find_none _ _ Hfind u Hin) as Hno.
    rewrite Forall_forall in Hnamed.
    destruct (Hnamed u) as (a & b & Ha & Hb); [by apply list_elem_of_In |].
    unfold matches_ci, ci_equal in Hno. rewrite Ha, Hb in Hno.
    apply orb_false_elim in Hno as [Hna Hnb].
    apply String.eqb_neq in Hna, Hnb.
    unfold ci_key. rewrite Ha, Hb, Hgu, Hge, toLowerCase_idem.
    split; congruence. }
  split_and!.
  - apply Forall_app. split; [done |].
    apply Forall_singleton, string_named_new_record.
  - rewrite fmap_app. apply NoDup_app. split_and!; [done | | apply NoDup_singleton].
    intros k Hk Hk'. apply list_elem_of_fmap in Hk as (u & -> & Hin).
    apply list_elem_of_singleton in Hk'. by apply (proj1 (Hfresh u Hin)).
  - rewrite fmap_app. apply NoDup_app. split_and!; [done | | apply NoDup_singleton].
    intros k Hk Hk'. apply list_elem_of_fmap in Hk as (u & -> & Hin).
    apply list_elem_of_singleton in Hk'. by apply (proj2 (Hfresh u Hin)).
Qed.

Lemma names_invariant_update (now id : string) (updates : obj)
  (users : store) :
  keeps_names (Update id updates) ->
  names_invariant users ->
  names_invariant (snd (updateUser now id updates users)).
Proof.
  intros [Hnu Hne] (Hnamed & Hnames & Hmails).
  destruct (updateUser_cases now id updates users)
    as [[_ ->] | (i & u & Hu & _ & _ & _ & _ & ->)]; [done |].
  set (after := updatedUser _ _ _ _ _).
  assert (get after "username" = get u "username"
          /\ get after "email" = get u "email") as [Hsame1 Hsame2].
  { unfold get, after. rewrite !(lookup_updatedUser _ _ _ _ _ _ _ Hu).
    simpl. by rewrite Hnu, Hne. }
  assert (forall field, field = "username" \/ field = "email" ->
            ci_key field <$> <[i := after]> users = ci_key field <$> users)
    as Hkeys.
  { intros field Hfield. rewrite list_fmap_insert. apply list_insert_id.
    rewrite list_lookup_fmap, Hu. simpl. unfold ci_key.
    by destruct Hfield as [-> | ->]; rewrite ?Hsame1, ?Hsame2. }
  split_and!.
  - apply Forall_insert; [done |].
    rewrite Forall_forall in Hnamed.
    destruct (Hnamed u) as (a & b & Ha & Hb); [by eapply list_elem_of_lookup_2 |].
    exists a, b. by rewrite Hsame1, Hsame2.
  - rewrite Hkeys by auto. done.
  - rewrite Hkeys by auto. done.
Qed.

Lemma deleteUser_store (id : string) (users : store) :
  snd (deleteUser id users) = users
  \/ exists i, snd (deleteUser id users) = delete i users.
Proof.
  unfold deleteUser. destruct (isNaN _); [by left |].
  destruct (findIndex _ users) as [i |]; [right; by exists i | by left].
Qed.

Lemma names_invariant_delete (id : string) (users : store) :
  names_invariant users -> names_invariant (snd (deleteUser id users)).
Proof.
  intros (Hnamed & Hnames & Hmails).
  destruct (deleteUser_store id users) as [-> | (i & ->)]; [done |].
  split_and!.
  - by apply Forall_delete.
  - rewrite list_fmap_delete. exact (sublist_NoDup _ _ Hnames (sublist_delete _ i)).
  - rewrite list_fmap_delete. exact (sublist_NoDup _ _ Hmails (sublist_delete _ i)).
Qed.

Lemma getUserById_store (id : string) (users : store) :
  snd (getUserById id users) = users.
Proof.
  unfold getUserById. destruct (isNaN _); [done |].
  by destruct (List.find _ users).
Qed.

(** C2, amended: in every state reachable from the initial collection by
    deletes, by creates whose [username] and [email] have no surrounding
    white space, and by updates whose [partialFields] name neither
    [username] nor [email], no two stored records share a
    case-insensitive [username] or a case-insensitive [email]. *)
Theorem names_stay_unique (t0 : string) (users : store) :
  reachable_by keeps_names t0 users ->
  unique_ci "username" users /\ unique_ci "email" users.
Proof.
  intros Hreach. apply names_invariant_unique.
  induction Hreach as [| now r users Hr _ IH].
  - apply names_invariant_initial.
  - destruct r as [| id | body | id updates | id]; simpl.
    + exact IH.
    + by rewrite getUserById_store.
    + by apply names_invariant_create.
    + by apply names_invariant_update.
    + by apply names_invariant_delete.
Qed.

Lemma keeps_names_alice : keeps_names (Create alice).
Proof. split; intros s Hs; vm_compute in Hs; by injection Hs as <-. Qed.

Lemma names_stay_unique_witness :
  reachable_by keeps_names "t0"
    (snd (handle "t1" (Create alice) (initial_users "t0")))
  /\ unique_ci "username" (snd (handle "t1" (Create alice) (initial_users "t0")))
  /\ unique_ci "email" (snd (handle "t1" (Create alice) (initial_users "t0"))).
Proof.
  assert (reachable_by keeps_names "t0"
            (snd (handle "t1" (Create alice) (initial_users "t0")))) as Hreach.
  { apply reachable_handle; [apply keeps_names_alice | apply reachable_initial]. }
  split; [exact Hreach |].
  exact (names_stay_unique "t0" _ Hreach).
Defined.

(** C2 as stated fails: an update can rename a record to a name that is
    taken, and a create whose username is padded with white space is
    compared untrimmed and stored trimmed.  Both leave two records with
    the same case-insensitive [username] in a reachable state. *)
Lemma names_stay_unique_counterexample :
  (reachable "t0" two_admins
   /\ exists u v : obj,
        two_admins !! 0%nat = Some u /\ two_admins !! 1%nat = Some v
        /\ get u "username" = VStr "admin" /\ get v "username" = VStr "Admin"
        /\ same_ci (get u "username") (get v "username") = true)
  /\ (reachable "t0" trimmed_admins
      /\ exists u v : obj,
           trimmed_admins !! 0%nat = Some u /\ trimmed_admins !! 1%nat = Some v
           /\ get u "username" = VStr "admin" /\ get v "username" = VStr "admin"
           /\ same_ci (get u "username") (get v "username") = true).
Proof.
  split; (split; [apply reachable_run, reachable_initial |]);
    eexists _, _; split_and!; reflexivity.
Qed.

(** ** Identifiers *)

(** The three handlers that take an identifier share their first test. *)
Lemma invalid_id_iff (now id : string) (updates : obj) (users : store) :
  (status (fst (getUserById id users)) = 400 <-> isNaN (parseInt id) = true)
  /\ (status (fst (updateUser now id updates users)) = 400
      <-> isNaN (parseInt id) = true)
  /\ (status (fst (deleteUser id users)) = 400 <-> isNaN (parseInt id) = true).
Proof.
  unfold getUserById, updateUser, deleteUser.
  destruct (isNaN (parseInt id)); simpl; [done |].
  destruct (List.find _ users), (findIndex _ users); simpl; by split_and!.
Qed.

Lemma digits_seen (r : Z) (s : string) (acc : Z) :
  exists m, digits r s true acc = Some m.
Proof.
  revert acc. induction s as [| c rest IH]; intros acc; simpl; [by eexists |].
  destruct (digit_value r c); [apply IH | by eexists].
Qed.

Lemma digit_value_decimal (c : ascii) :
  is_digit c = true -> exists d, digit_value 10 c = Some d.
Proof.
  destruct c as [[] [] [] [] [] [] [] []]; try discriminate; by eexists.
Qed.

Lemma decimal_digits (s : string) :
  decimal s = true -> exists m, digits 10 s false 0 = Some m.
Proof.
  destruct s as [| c rest]; [done |].
  intros [_ Hall]%andb_prop. cbn [all_digits] in Hall.
  apply andb_prop in Hall as [Hc _]. cbn [digits].
  destruct (digit_value_decimal c Hc) as (d & ->). apply digits_seen.
Qed.

Lemma decimal_not_hex (s : string) :
  decimal s = true -> strip_hex s = (10, s).
Proof.
  destruct s as [| c [| c' rest]]; [done | |].
  { intros _. by destruct c as [[] [] [] [] [] [] [] []]. }
  intros [_ Hall]%andb_prop. cbn [all_digits] in Hall.
  apply andb_prop in Hall as [Hc [Hc' _]%andb_prop].
  destruct c as [[] [] [] [] [] [] [] []]; try done;
    destruct c' as [[] [] [] [] [] [] [] []]; done.
Qed.

Lemma isNaN_to_double (negative : bool) (m : Z) :
  isNaN (to_double negative m) = false.
Proof. unfold to_double. by destruct (Z.leb _ _). Qed.

(** A valid integer is never rejected as an identifier. *)
Lemma valid_integer_parses (s : string) :
  valid_integer s = true -> isNaN (parseInt s) = false.
Proof.
  intros Hvalid. unfold parseInt.
  assert (exists negative r, strip_sign (trimStart s) = (negative, r)
                             /\ decimal r = true) as (negative & r & -> & Hr).
  { destruct s as [| c rest]; [done |].
    destruct c as [[] [] [] [] [] [] [] []]; simpl in *; try done;
      try (by eexists _, _);
      unfold decimal in Hvalid; simpl in Hvalid; try done. }
  rewrite (decimal_not_hex r Hr).
  destruct (decimal_digits r Hr) as (m & ->). apply isNaN_to_double.
Qed.

Lemma letters_rejected (now : string) (updates : obj) (users : store) :
  fst (getUserById "abc" users) = failure 400 "Invalid user ID"
  /\ fst (updateUser now "abc" updates users) = failure 400 "Invalid user ID"
  /\ fst (deleteUser "abc" users) = failure 400 "Invalid user ID".
Proof. by split_and!. Qed.

(** C4 at the identifier ["12abc"]: it is not a valid integer, yet
    [parseInt] reads it as 12 and none of getById, update and delete
    answers 400, whatever the collection; on a fresh process with one
    more user, getById answers 404 and not 400. *)
Theorem trailing_garbage_id_accepted (now : string) (updates : obj)
  (users : store) :
  valid_integer "12abc" = false
  /\ parseInt "12abc" = Fin 12
  /\ status (fst (getUserById "12abc" users)) <> 400
  /\ status (fst (updateUser now "12abc" updates users)) <> 400
  /\ status (fst (deleteUser "12abc" users)) <> 400
  /\ fst (getUserById "12abc" (initial_users "t0"))
     = failure 404 "User not found".
Proof.
  destruct (invalid_id_iff now "12abc" updates users) as (Hget & Hupd & Hdel).
  split_and!; try reflexivity.
  - intros H. by apply Hget in H.
  - intros H. by apply Hupd in H.
  - intros H. by apply Hdel in H.
Qed.

(** ** Identifier assignment and deletion *)

(** A create that answers 201 reports the length of the collection plus
    one as the new [id]. *)
Lemma createUser_returned_id (now : string) (body : obj) (users : store) :
  status (fst (createUser now body users)) = 201 ->
  returned_id (fst (createUser now body users))
  = VNum (Fin (Z.of_nat (length users) + 1)).
Proof.
  intros H201.
  destruct (createUser_created now body users H201)
    as (username & email & _ & _ & _ & _ & _ & _ & ->).
  simpl. unfold returned_id. simpl.
  rewrite get_sanitizedUser by (unfold public_fields; set_solver).
  apply get_new_record.
Qed.

(** C1 on the run [reuse_requests]: the four responses report the ids
    2, 3, 2 (the record deleted) and 3, so the third create is given the
    id 3 that the second create had been given, and the collection ends
    up with two records whose [id] is 3. *)
Theorem create_reuses_id_after_delete :
  let '(responses, users) := run reuse_requests (initial_users "t0") in
  status <$> responses = [201; 201; 200; 201]
  /\ returned_id <$> responses
     = [VNum (Fin 2); VNum (Fin 3); VNum (Fin 2); VNum (Fin 3)]
  /\ exists u v : obj,
       users !! 1%nat = Some u /\ users !! 2%nat = Some v
       /\ get u "username" = VStr "alice" /\ get u "id" = VNum (Fin 3)
       /\ get v "username" = VStr "carol" /\ get v "id" = VNum (Fin 3).
Proof.
  vm_compute run. split_and!; try reflexivity.
  eexists _, _. split_and!; reflexivity.
Qed.

(** What delete does when it finds the identifier. *)
Lemma deleteUser_cases (id : string) (users : store) :
  (status (fst (deleteUser id users)) <> 200
   /\ snd (deleteUser id users) = users)
  \/ (exists (i : nat) (u : obj),
        users !! i = Some u
        /\ has_id (parseInt id) u = true
        /\ (forall j v, (j < i)%nat -> users !! j = Some v ->
              has_id (parseInt id) v = false)
        /\ deleteUser id users
           = (ok 200 (VObj (literal [("id", get u "id");
                                     ("username", get u "username")])),
              delete i users)).
Proof.
  unfold deleteUser. destruct (isNaN _); [by left |].
  destruct (findIndex _ users) as [i |] eqn:Hfind; [| by left].
  destruct (findIndex_Some _ _ _ Hfind) as (u & Hu & Hid & Hbefore).
  right. exists i, u. rewrite Hu. by split_and!.
Qed.

Lemma deleteUser_missing (id : string) (users : store) :
  isNaN (parseInt id) = false ->
  (forall u, u ∈ users -> has_id (parseInt id) u = false) ->
  deleteUser id users = (failure 404 "User not found", users).
Proof.
  intros Hnum Hnone. unfold deleteUser. rewrite Hnum.
  destruct (findIndex _ users) as [i |] eqn:Hfind; [| done].
  destruct (findIndex_Some _ _ _ Hfind) as (u & Hu & Hid & _).
  rewrite Hnone in Hid; [done | by eapply list_elem_of_lookup_2].
Qed.

(** While identifiers are unique, the deleted record is gone for good:
    getById on its identifier answers 404. *)
Lemma delete_then_get_unique_ids (id : string) (users : store) :
  unique_ids users ->
  status (fst (deleteUser id users)) = 200 ->
  fst (getUserById id (snd (deleteUser id users)))
  = failure 404 "User not found".
Proof.
  intros Huniq H200.
  destruct (deleteUser_cases id users)
    as [[Hfail _] | (i & u & Hu & Hid & _ & Heq)]; [done |].
  rewrite Heq in *. simpl. unfold getUserById.
  destruct (isNaN (parseInt id)) eqn:Hnan.
  { unfold deleteUser in Heq. by rewrite Hnan in Heq. }
  destruct (List.find _ _) as [v |] eqn:Hfind; [| done]. exfalso.
  apply find_some in Hfind as [Hin Hv].
  apply list_elem_of_In, list_elem_of_lookup_1 in Hin as (j & Hj).
  destruct (decide (j < i)%nat) as [Hlt | Hge].
  - rewrite list_lookup_delete_lt in Hj by done.
    pose proof (Huniq _ _ _ _ _ Hj Hu Hv Hid). lia.
  - rewrite list_lookup_delete_ge in Hj by lia.
    pose proof (Huniq _ _ _ _ _ Hj Hu Hv Hid). lia.
Qed.

(** C7 on the collection [reuse_requests] leaves behind, where alice and
    carol both have id 3: delete of ["3"] removes alice and reports her,
    and the getById of ["3"] that follows answers 200 with carol's
    record instead of 404. *)
Theorem delete_leaves_duplicate_id :
  let users := snd (run reuse_requests (initial_users "t0")) in
  reachable "t0" users
  /\ fst (deleteUser "3" users)
     = ok 200 (VObj (literal [("id", VNum (Fin 3)); ("username", VStr "alice")]))
  /\ status (fst (getUserById "3" (snd (deleteUser "3" users)))) = 200
  /\ exists d : obj,
       data (fst (getUserById "3" (snd (deleteUser "3" users)))) = Some (VObj d)
       /\ get d "username" = VStr "carol".
Proof.
  intros users. split; [apply reachable_run, reachable_initial |].
  split_and!; try reflexivity. eexists. split; reflexivity.
Qed.


(** * Further properties of the handlers *)

(** ** Status codes and failure atomicity *)

Ltac status_case :=
  simpl; split_and!;
  [ set_solver
  | split; [intros ?; first [done | by left | by right] | by intros [? | ?]]
  | intros ?; first [done | by split; [eexists |]]
  | intros ?; first [done | by split; [| eexists]] ].

(** Every handler answers with one of its own statuses; a response is a
    success exactly when its status is 200 or 201, and then it carries
    data and no error, and otherwise an error and no data. *)
Theorem status_table (now : string) (r : request) (users : store) :
  let resp := fst (handle now r users) in
  status resp ∈ possible_statuses r
  /\ (success resp = true <-> status resp = 200 \/ status resp = 201)
  /\ (success resp = true -> is_Some (data resp) /\ error resp = None)
  /\ (success resp = false -> data resp = None /\ is_Some (error resp)).
Proof.
  destruct r as [| id | body | id updates | id]; simpl.
  - status_case.
  - unfold getUserById. destruct (isNaN _); [| destruct (List.find _ _)];
      status_case.
  - run_completion. destruct (_ || _);
      [| destruct (find _ _) as [[existing |] |];
         [| destruct (call_trim _); [destruct (call_trim _) |] |]];
      status_case.
  - unfold updateUser. destruct (isNaN _); [| destruct (findIndex _ _)];
      status_case.
  - unfold deleteUser. destruct (isNaN _); [| destruct (findIndex _ _)];
      status_case.
Qed.

(** A request that is answered with a failure leaves the collection
    exactly as it was, and so do the two read handlers whatever they
    answer. *)
Theorem failure_leaves_store (now : string) (r : request) (users : store) :
  success (fst (handle now r users)) = false \/ r = GetAll
  \/ (exists id, r = GetById id) ->
  snd (handle now r users) = users.
Proof.
  intros [Hfail | [-> | (id & ->)]]; [| done | apply getUserById_store].
  destruct r as [| id | body | id updates | id]; simpl in *.
  - done.
  - apply getUserById_store.
  - apply createUser_unchanged. intros H201.
    destruct (createUser_created now body users H201)
      as (username & email & _ & _ & _ & _ & _ & _ & Heq).
    by rewrite Heq in Hfail.
  - destruct (updateUser_cases now id updates users)
      as [[_ ->] | (i & u & _ & _ & _ & H200 & Hdata & _)]; [done |].
    unfold updateUser in Hfail, H200.
    destruct (isNaN _); [done |]. by destruct (findIndex _ _).
  - destruct (deleteUser_cases id users)
      as [[_ ->] | (i & u & _ & _ & _ & Heq)]; [done |].
    by rewrite Heq in Hfail.
Qed.

Lemma failure_leaves_store_witness :
  success (fst (handle "t1" (Create second_admin) (initial_users "t0"))) = false
  /\ snd (handle "t1" (Create second_admin) (initial_users "t0"))
     = initial_users "t0".
Proof.
  split; [reflexivity |].
  apply (failure_leaves_store "t1" (Create second_admin) (initial_users "t0")).
  left. reflexivity.
Defined.

Lemma createUser_success (now : string) (body : obj) (users : store) :
  success (fst (createUser now body users)) = true ->
  status (fst (createUser now body users)) = 201.
Proof.
  run_completion. destruct (_ || _); [done |].
  destruct (find _ users) as [[existing |] |]; [done | | done].
  destruct (call_trim _); [| done]. by destruct (call_trim _).
Qed.

Lemma deleteUser_success (id : string) (users : store) :
  success (fst (deleteUser id users)) = true ->
  status (fst (deleteUser id users)) = 200.
Proof.
  unfold deleteUser. destruct (isNaN _); [done |].
  by destruct (findIndex _ users).
Qed.

(** The number of records grows by one on a successful create, shrinks
    by one on a successful delete, and is unchanged by every other
    request and by every failure. *)
Theorem length_accounting (now : string) (r : request) (users : store) :
  Z.of_nat (length (snd (handle now r users)))
  = Z.of_nat (length users) + growth r (fst (handle now r users)).
Proof.
  destruct r as [| id | body | id updates | id]; simpl.
  - lia.
  - rewrite getUserById_store. lia.
  - destruct (decide (status (fst (createUser now body users)) = 201))
      as [H201 | Hfail].
    + destruct (createUser_created now body users H201)
        as (username & email & _ & _ & _ & _ & _ & _ & ->).
      simpl. rewrite length_app. simpl. lia.
    + rewrite createUser_unchanged by done.
      destruct (success _) eqn:Hok; [| lia].
      by apply createUser_success in Hok.
  - destruct (updateUser_cases now id updates users)
      as [[_ ->] | (i & u & _ & _ & _ & _ & _ & ->)];
      rewrite ?length_insert; lia.
  - destruct (deleteUser_cases id users)
      as [[Hfail Heq] | (i & u & Hu & _ & _ & Heq)].
    + rewrite Heq. destruct (success _) eqn:Hok; [| lia].
      by apply deleteUser_success in Hok.
    + rewrite Heq. simpl. rewrite length_delete by eauto.
      apply lookup_lt_Some in Hu. lia.
Qed.

(** ** Create: validation, exceptions and success *)

Lemma createUser_missing_field (now : string) (body : obj) (users : store) :
  required_present body = false ->
  createUser now body users = (failure 400 "Validation failed", users).
Proof.
  unfold required_present. run_completion.
  by destruct (truthy (get body "username")),
              (truthy (get body "email")),
              (truthy (get body "password")).
Qed.


(** A truthy [username] that is not a string (a number, [true], an array
    or an object) makes create answer 500 in every state, and nothing is
    stored: either the comparison or the trimming throws. *)
Theorem create_non_string_username (now : string) (body : obj)
  (users : store) :
  required_present body = true ->
  is_string (get body "username") = false ->
  createUser now body users = (failure 500 "Failed to create user", users).
Proof.
  unfold required_present. intros Hreq Hstr. run_completion.
  apply andb_prop in Hreq as [[Hu He]%andb_prop Hp].
  rewrite Hu, He, Hp. simpl.
  destruct users as [| u rest]; simpl.
  - by destruct (get body "username").
  - unfold already_registered, mbind, completion_bind.
    destruct (call_toLowerCase (get u "username")); [| done].
    by destruct (get body "username").
Qed.

Lemma create_non_string_username_witness :
  required_present numeric_name = true
  /\ is_string (get numeric_name "username") = false
  /\ createUser "t1" numeric_name (initial_users "t0")
     = (failure 500 "Failed to create user", initial_users "t0").
Proof.
  do 2 (split; [reflexivity |]).
  apply (create_non_string_username "t1" numeric_name (initial_users "t0"));
    reflexivity.
Defined.

(** On a collection whose records have string names, a create with
    non-empty string [username] and [email] and a password that matches
    no record case-insensitively answers 201 and appends the record. *)
Theorem create_succeeds_without_match (now : string) (body : obj)
  (users : store) (username email : string) :
  get body "username" = VStr username ->
  get body "email" = VStr email ->
  username <> "" -> email <> "" ->
  truthy (get body "password") = true ->
  Forall string_named users ->
  (forall u, u ∈ users -> matches_ci username email u = false) ->
  status (fst (createUser now body users)) = 201
  /\ snd (createUser now body users)
     = (users ++ [new_record now (length users) username email
                    (role_or_default body)])%list.
Proof.
  intros Hu He Hnu Hne Hp Hall Hnone.
  rewrite (createUser_string_named now body users username email) by done.
  destruct (List.find _ users) as [u |] eqn:Hfind; [| done].
  apply find_some in Hfind as [Hin Hmatch].
  rewrite Hnone in Hmatch; [done | by apply list_elem_of_In].
Qed.

Lemma create_succeeds_without_match_witness :
  status (fst (createUser "t1" dave (initial_users "t0"))) = 201
  /\ snd (createUser "t1" dave (initial_users "t0"))
     = (initial_users "t0"
        ++ [new_record "t1" 1 "  Dave " " Dave@X.com " (VStr "auditor")])%list.
Proof.
  apply (create_succeeds_without_match "t1" dave (initial_users "t0")
           "  Dave " " Dave@X.com "); try reflexivity; try discriminate.
  - apply string_named_initial.
  - intros u Hu. destruct (get_initial "t0") as (u0 & Hinit & _).
    rewrite Hinit in Hu. apply list_elem_of_singleton in Hu as ->.
    injection Hinit as <-. reflexivity.
Defined.

(** ** Looking a record up by identifier *)

Lemma same_status (now id : string) (updates : obj) (users : store) :
  status (fst (updateUser now id updates users))
  = status (fst (getUserById id users))
  /\ status (fst (deleteUser id users)) = status (fst (getUserById id users)).
Proof.
  unfold getUserById, updateUser, deleteUser. rewrite find_findIndex.
  destruct (isNaN _); [done |].
  destruct (findIndex _ users) as [i |] eqn:Hfind; simpl; [| done].
  destruct (findIndex_Some _ _ _ Hfind) as (u & -> & _). done.
Qed.

(** getById, update and delete resolve an identifier alike: they answer
    with the same status, and when that status is 200 the record getById
    shows is the one update replaces and delete removes, namely the
    first record of the collection whose [id] equals the parsed
    identifier. *)
Theorem handlers_resolve_alike (now id : string) (updates : obj)
  (users : store) :
  status (fst (updateUser now id updates users))
  = status (fst (getUserById id users))
  /\ status (fst (deleteUser id users)) = status (fst (getUserById id users))
  /\ (status (fst (getUserById id users)) = 200 ->
      exists (i : nat) (u : obj),
        users !! i = Some u
        /\ has_id (parseInt id) u = true
        /\ (forall j v, (j < i)%nat -> users !! j = Some v ->
              has_id (parseInt id) v = false)
        /\ data (fst (getUserById id users)) = Some (VObj (sanitizedUser u))
        /\ snd (updateUser now id updates users)
           = <[i := updatedUser now (parseInt id) updates users i]> users
        /\ snd (deleteUser id users) = delete i users).
Proof.
  unfold getUserById, updateUser, deleteUser. rewrite find_findIndex.
  destruct (isNaN _); [by split_and! |].
  destruct (findIndex _ users) as [i |] eqn:Hfind; simpl; [| by split_and!].
  destruct (findIndex_Some _ _ _ Hfind) as (u & Hu & Hid & Hbefore).
  rewrite Hu. simpl. split_and!; [done | done |]. intros _.
  exists i, u. by split_and!.
Qed.

(** ** Update *)

(** An update never changes the [id] of any record, whatever the body
    says: the sequence of ids of the collection is the same afterwards,
    and every identifier resolves to the same position as before. *)
Theorem update_keeps_ids (now id : string) (updates : obj) (users : store) :
  ids (snd (updateUser now id updates users)) = ids users
  /\ forall n, findIndex (has_id n) (snd (updateUser now id updates users))
               = findIndex (has_id n) users.
Proof.
  split; [apply updateUser_ids |].
  intros n. apply findIndex_ids, updateUser_ids.
Qed.

(** The merge of an update is idempotent: sending the same update again
    at the same time gives the same response and the same collection. *)
Theorem update_idempotent (now id : string) (updates : obj) (users : store) :
  updateUser now id updates (snd (updateUser now id updates users))
  = updateUser now id updates users.
Proof.
  destruct (isNaN (parseInt id)) eqn:Hnum.
  { by rewrite updateUser_not_found by auto. }
  destruct (findIndex (has_id (parseInt id)) users) as [i |] eqn:Hfind.
  2: { by rewrite updateUser_not_found by auto. }
  pose proof (findIndex_ids (parseInt id) _ _
                (updateUser_ids now id updates users)) as Hsame.
  rewrite Hfind in Hsame.
  rewrite (updateUser_found now id updates _ i Hnum Hsame).
  rewrite (updateUser_found now id updates users i Hnum Hfind). simpl.
  destruct (findIndex_Some _ _ _ Hfind) as (u & Hu & _ & _).
  set (after := updatedUser now (parseInt id) updates users i).
  assert (updatedUser now (parseInt id) updates (<[i := after]> users) i
          = after) as ->.
  { apply map_eq. intros k.
    assert (<[i := after]> users !! i = Some after) as Hafter.
    { apply list_lookup_insert_eq. by eapply lookup_lt_Some. }
    rewrite (lookup_updatedUser _ _ _ _ _ _ _ Hafter). unfold after.
    rewrite !(lookup_updatedUser _ _ _ _ _ _ _ Hu).
    repeat case_decide; try done. by destruct (updates !! k). }
  by rewrite list_insert_insert_eq.
Qed.

(** An update that answers 200 touches one record only; in that record
    every property that [partialFields] does not name, other than
    [updatedAt], keeps its value, and the number of records is the
    same. *)
Theorem update_frame (now id : string) (updates : obj) (users : store) :
  status (fst (updateUser now id updates users)) = 200 ->
  exists (i : nat) (before after : obj),
    users !! i = Some before
    /\ snd (updateUser now id updates users) !! i = Some after
    /\ (forall j, j <> i ->
          snd (updateUser now id updates users) !! j = users !! j)
    /\ (forall k, k <> "updatedAt" -> updates !! k = None ->
          after !! k = before !! k)
    /\ length (snd (updateUser now id updates users)) = length users.
Proof.
  intros H200.
  destruct (updateUser_cases now id updates users)
    as [[Hfail _] | (i & u & Hu & Hid & _ & _ & _ & ->)]; [done |].
  exists i, u, (updatedUser now (parseInt id) updates users i).
  split_and!.
  - done.
  - apply list_lookup_insert_eq. by eapply lookup_lt_Some.
  - intros j Hj. by apply list_lookup_insert_ne.
  - intros k Hk Hnone. rewrite (lookup_updatedUser _ _ _ _ _ _ _ Hu).
    rewrite decide_False by done. rewrite Hnone.
    case_decide as Hkid; [| done]. subst k.
    apply has_id_value in Hid. unfold get in Hid.
    destruct (u !! "id"); simpl in Hid; by subst.
  - apply length_insert.
Qed.

Lemma update_frame_witness :
  status (fst (updateUser "t1" "1" promote (initial_users "t0"))) = 200
  /\ exists (i : nat) (before after : obj),
       initial_users "t0" !! i = Some before
       /\ snd (updateUser "t1" "1" promote (initial_users "t0")) !! i
          = Some after
       /\ (forall j, j <> i ->
             snd (updateUser "t1" "1" promote (initial_users "t0")) !! j
             = initial_users "t0" !! j)
       /\ (forall k, k <> "updatedAt" -> promote !! k = None ->
             after !! k = before !! k)
       /\ length (snd (updateUser "t1" "1" promote (initial_users "t0")))
          = length (initial_users "t0").
Proof.
  split; [reflexivity |].
  apply (update_frame "t1" "1" promote (initial_users "t0")). reflexivity.
Defined.

(** What an update answers is what is stored: a getById of the same
    identifier right after a successful update answers 200 and shows,
    for [id], [username], [email], [role] and [createdAt], the values
    the update response showed. *)
Theorem update_then_get (now id : string) (updates : obj) (users : store) :
  status (fst (updateUser now id updates users)) = 200 ->
  exists shown read : obj,
    data (fst (updateUser now id updates users)) = Some (VObj shown)
    /\ fst (getUserById id (snd (updateUser now id updates users)))
       = ok 200 (VObj read)
    /\ forall k, k ∈ public_fields -> get read k = get shown k.
Proof.
  intros H200.
  destruct (isNaN (parseInt id)) eqn:Hnum.
  { unfold updateUser in H200. by rewrite Hnum in H200. }
  destruct (findIndex (has_id (parseInt id)) users) as [i |] eqn:Hfind.
  2: { unfold updateUser in H200. by rewrite Hnum, Hfind in H200. }
  pose proof (findIndex_ids (parseInt id) _ _
                (updateUser_ids now id updates users)) as Hsame.
  rewrite Hfind in Hsame.
  destruct (findIndex_Some _ _ _ Hfind) as (u & Hu & _ & _).
  unfold getUserById. rewrite Hnum, find_findIndex, Hsame. simpl.
  rewrite (updateUser_found now id updates users i Hnum Hfind). simpl.
  rewrite list_lookup_insert_eq by (by eapply lookup_lt_Some).
  eexists _, _. split_and!; [done | done |].
  intros k Hk. rewrite get_sanitizedUser by done.
  unfold public_fields in Hk.
  rewrite !elem_of_union, !elem_of_singleton in Hk.
  unfold literal, get at 2. simpl list_to_map.
  destruct Hk as [[[[-> | ->] | ->] | ->] | ->]; by lookup_fields.
Qed.

Lemma update_then_get_witness :
  status (fst (updateUser "t1" "1" promote (initial_users "t0"))) = 200
  /\ exists shown read : obj,
       data (fst (updateUser "t1" "1" promote (initial_users "t0")))
       = Some (VObj shown)
       /\ fst (getUserById "1"
                 (snd (updateUser "t1" "1" promote (initial_users "t0"))))
          = ok 200 (VObj read)
       /\ forall k, k ∈ public_fields -> get read k = get shown k.
Proof.
  split; [reflexivity |].
  apply (update_then_get "t1" "1" promote (initial_users "t0")). reflexivity.
Defined.

(** ** Identifiers over runs *)

Lemma unique_ids_ids (l1 l2 : store) :
  ids l1 = ids l2 -> unique_ids l1 -> unique_ids l2.
Proof.
  intros Hids Huniq i j u v n Hi Hj Hu Hv.
  assert (forall k w, l2 !! k = Some w -> has_id n w = true ->
            exists w', l1 !! k = Some w' /\ has_id n w' = true) as Hback.
  { intros k w Hk Hw.
    assert (ids l1 !! k = Some (get w "id")) as Hl1.
    { rewrite Hids. unfold ids. by rewrite list_lookup_fmap, Hk. }
    unfold ids in Hl1. rewrite list_lookup_fmap in Hl1.
    destruct (l1 !! k) as [w' |]; [| done]. injection Hl1 as Hl1.
    exists w'. split; [done |]. unfold has_id in *. by rewrite Hl1. }
  destruct (Hback i u Hi Hu) as (u' & Hi' & Hu').
  destruct (Hback j v Hj Hv) as (v' & Hj' & Hv').
  by apply (Huniq i j u' v' n).
Qed.

Lemma unique_ids_delete (i : nat) (users : store) :
  unique_ids users -> unique_ids (delete i users).
Proof.
  intros Huniq j k u v n Hj Hk Hu Hv.
  rewrite list_lookup_delete in Hj, Hk.
  pose proof (Huniq _ _ _ _ _ Hj Hk Hu Hv) as Heq.
  repeat case_decide; lia.
Qed.

(** Reads, updates and deletes keep identifiers unique: in this
    controller only a create can give two records the same [id]. *)
Theorem unique_ids_kept (now : string) (r : request) (users : store) :
  not_create r ->
  unique_ids users ->
  unique_ids (snd (handle now r users)).
Proof.
  intros Hr Huniq. destruct r as [| id | body | id updates | id]; simpl.
  - done.
  - by rewrite getUserById_store.
  - done.
  - eapply unique_ids_ids; [| exact Huniq]. symmetry.
    apply updateUser_ids.
  - destruct (deleteUser_store id users) as [-> | (i & ->)]; [done |].
    by apply unique_ids_delete.
Qed.

Lemma sequential_ids_unique (users : store) :
  sequential_ids users -> unique_ids users.
Proof.
  intros Hseq i j u v n Hi Hj Hu Hv.
  apply has_id_value in Hu, Hv.
  rewrite (Hseq i u Hi) in Hu. rewrite (Hseq j v Hj) in Hv.
  assert (Z.of_nat i + 1 = Z.of_nat j + 1) by congruence. lia.
Qed.

Lemma unique_ids_initial (t0 : string) : unique_ids (initial_users t0).
Proof.
  apply sequential_ids_unique. intros [| i] u; [| done].
  destruct (get_initial t0) as (u0 & -> & Hid & _). by intros [= <-].
Qed.

Lemma unique_ids_kept_witness :
  not_create (Delete "1")
  /\ unique_ids (initial_users "t0")
  /\ unique_ids (snd (handle "t1" (Delete "1") (initial_users "t0"))).
Proof.
  split; [exact I |]. split; [apply unique_ids_initial |].
  apply (unique_ids_kept "t1" (Delete "1") (initial_users "t0") I).
  apply unique_ids_initial.
Defined.

Lemma sequential_ids_handle (now : string) (r : request) (users : store) :
  no_delete r -> sequential_ids users ->
  sequential_ids (snd (handle now r users)).
Proof.
  intros Hr Hseq. destruct r as [| id | body | id updates | id]; simpl.
  - done.
  - by rewrite getUserById_store.
  - destruct (decide (status (fst (createUser now body users)) = 201))
      as [H201 | Hfail]; [| by rewrite createUser_unchanged].
    destruct (createUser_created now body users H201)
      as (username & email & _ & _ & _ & _ & _ & _ & ->). simpl.
    intros i u Hi. apply lookup_app_Some in Hi as [Hi | [Hlen Hi]].
    + by apply Hseq.
    + apply list_lookup_singleton_Some in Hi as [Hi <-].
      replace i with (length users) by lia. apply get_new_record.
  - intros i u Hi.
    assert (ids (snd (updateUser now id updates users)) !! i
            = Some (get u "id")) as Hid.
    { unfold ids. by rewrite list_lookup_fmap, Hi. }
    rewrite (updateUser_ids now id updates users) in Hid.
    unfold ids in Hid. rewrite list_lookup_fmap in Hid.
    destruct (users !! i) as [u' |] eqn:Hi'; [| done].
    injection Hid as <-. by apply Hseq.
  - done.
Qed.

(** As long as nothing is deleted, the record at position [i] has id
    [i + 1]: identifiers are unique, and a create that answers 201
    reports an id greater than every id in the collection. *)
Theorem ids_sequential_without_delete (t0 : string) (users : store) :
  reachable_by no_delete t0 users ->
  sequential_ids users
  /\ unique_ids users
  /\ forall now body,
       status (fst (createUser now body users)) = 201 ->
       returned_id (fst (createUser now body users))
       = VNum (Fin (Z.of_nat (length users) + 1))
       /\ forall u, u ∈ users ->
            exists z, get u "id" = VNum (Fin z)
                      /\ z < Z.of_nat (length users) + 1.
Proof.
  intros Hreach.
  assert (sequential_ids users) as Hseq.
  { induction Hreach as [| now r users Hr _ IH].
    - intros [| i] u; [| done].
      destruct (get_initial t0) as (u0 & -> & Hid & _). by intros [= <-].
    - by apply sequential_ids_handle. }
  split_and!; [done | by apply sequential_ids_unique |].
  intros now body H201. split; [by apply createUser_returned_id |].
  intros u Hu. apply list_elem_of_lookup_1 in Hu as (i & Hi).
  exists (Z.of_nat i + 1). split; [by apply Hseq |].
  apply lookup_lt_Some in Hi. lia.
Qed.

Lemma ids_sequential_without_delete_witness :
  reachable_by no_delete "t0"
    (snd (handle "t1" (Create alice) (initial_users "t0")))
  /\ sequential_ids (snd (handle "t1" (Create alice) (initial_users "t0")))
  /\ unique_ids (snd (handle "t1" (Create alice) (initial_users "t0"))).
Proof.
  assert (reachable_by no_delete "t0"
            (snd (handle "t1" (Create alice) (initial_users "t0")))) as Hreach.
  { apply reachable_handle; [exact I | apply reachable_initial]. }
  split; [exact Hreach |].
  destruct (ids_sequential_without_delete "t0" _ Hreach) as (Hseq & Huniq & _).
  by split.
Defined.

(** ** Delete *)

(** A delete that answers 200 removes the first record whose [id]
    equals the parsed identifier and nothing else: the records before
    and after it keep their order, and the response reports the [id]
    and [username] of the record removed. *)
Theorem delete_removes_first_match (id : string) (users : store) :
  status (fst (deleteUser id users)) = 200 ->
  exists (before after : store) (u d : obj),
    users = (before ++ u :: after)%list
    /\ snd (deleteUser id users) = (before ++ after)%list
    /\ has_id (parseInt id) u = true
    /\ (forall v, v ∈ before -> has_id (parseInt id) v = false)
    /\ data (fst (deleteUser id users)) = Some (VObj d)
    /\ dom d = {["id"; "username"]}
    /\ get d "id" = get u "id"
    /\ get d "username" = get u "username".
Proof.
  intros H200.
  destruct (deleteUser_cases id users)
    as [[Hfail _] | (i & u & Hu & Hid & Hbefore & ->)]; [done |].
  exists (take i users), (drop (S i) users), u. eexists.
  split_and!.
  - by rewrite take_drop_middle.
  - simpl. by rewrite delete_take_drop.
  - done.
  - intros v Hv. apply list_elem_of_lookup_1 in Hv as (j & Hj).
    apply lookup_take_Some in Hj as [Hj Hlt]. by eapply Hbefore.
  - done.
  - unfold literal; simpl. rewrite !dom_insert_L, dom_empty_L. set_solver.
  - unfold literal, get at 1; simpl. by lookup_fields.
  - unfold literal, get at 1; simpl. by lookup_fields.
Qed.

Lemma delete_removes_first_match_witness :
  status (fst (deleteUser "1" (initial_users "t0"))) = 200
  /\ exists (before after : store) (u d : obj),
       initial_users "t0" = (before ++ u :: after)%list
       /\ snd (deleteUser "1" (initial_users "t0")) = (before ++ after)%list
       /\ has_id (parseInt "1") u = true
       /\ (forall v, v ∈ before -> has_id (parseInt "1") v = false)
       /\ data (fst (deleteUser "1" (initial_users "t0"))) = Some (VObj d)
       /\ dom d = {["id"; "username"]}
       /\ get d "id" = get u "id"
       /\ get d "username" = get u "username".
Proof.
  split; [reflexivity |].
  apply (delete_removes_first_match "1" (initial_users "t0")). reflexivity.
Defined.

(** While identifiers are unique, a deleted record is gone for every
    handler: after a delete that answers 200, getById, update and a
    second delete of the same identifier all answer 404. *)
Theorem delete_forgets_record (now id : string) (updates : obj)
  (users : store) :
  unique_ids users ->
  status (fst (deleteUser id users)) = 200 ->
  status (fst (getUserById id (snd (deleteUser id users)))) = 404
  /\ status (fst (updateUser now id updates (snd (deleteUser id users)))) = 404
  /\ status (fst (deleteUser id (snd (deleteUser id users)))) = 404.
Proof.
  intros Huniq H200.
  pose proof (delete_then_get_unique_ids id users Huniq H200) as Hget.
  destruct (same_status now id updates (snd (deleteUser id users)))
    as [Hupd Hdel].
  rewrite Hupd, Hdel, Hget. by split_and!.
Qed.

Lemma delete_forgets_record_witness :
  unique_ids (initial_users "t0")
  /\ status (fst (deleteUser "1" (initial_users "t0"))) = 200
  /\ status (fst (getUserById "1" (snd (deleteUser "1" (initial_users "t0")))))
     = 404.
Proof.
  split; [apply unique_ids_initial |]. split; [reflexivity |].
  apply (delete_forgets_record "t1" "1" promote (initial_users "t0"));
    [apply unique_ids_initial | reflexivity].
Defined.

(** ** Create, then read *)

Lemma find_snoc {A} (p : A -> bool) (l : list A) (x : A) :
  (forall y, y ∈ l -> p y = false) -> p x = true ->
  List.find p (l ++ [x]) = Some x.
Proof.
  intros Hnone Hx. induction l as [| a l IH]; simpl; [by rewrite Hx |].
  rewrite Hnone by set_solver. apply IH. intros y Hy. apply Hnone. set_solver.
Qed.

(** When no stored record holds the id a create is about to assign, a
    getById of that id right after the create answers 200 with exactly
    the data the create answered with. *)
Theorem create_then_get (now id : string) (body : obj) (users : store) :
  status (fst (createUser now body users)) = 201 ->
  parseInt id = Fin (Z.of_nat (length users) + 1) ->
  (forall u, u ∈ users -> has_id (parseInt id) u = false) ->
  exists d,
    data (fst (createUser now body users)) = Some d
    /\ getUserById id (snd (createUser now body users))
       = (ok 200 d, snd (createUser now body users)).
Proof.
  intros H201 Hid Hfresh.
  destruct (createUser_created now body users H201)
    as (username & email & _ & _ & _ & _ & _ & _ & ->). simpl.
  eexists. split; [reflexivity |].
  unfold getUserById. rewrite Hid. simpl.
  rewrite find_snoc; [done | by rewrite <- Hid |].
  unfold has_id. destruct (get_new_record now (length users) username email
    (role_or_default body)) as (-> & _). simpl. apply Z.eqb_refl.
Qed.

Lemma create_then_get_witness :
  status (fst (createUser "t1" alice (initial_users "t0"))) = 201
  /\ parseInt "2" = Fin (Z.of_nat (length (initial_users "t0")) + 1)
  /\ exists d,
       data (fst (createUser "t1" alice (initial_users "t0"))) = Some d
       /\ getUserById "2" (snd (createUser "t1" alice (initial_users "t0")))
          = (ok 200 d, snd (createUser "t1" alice (initial_users "t0"))).
Proof.
  do 2 (split; [reflexivity |]).
  apply (create_then_get "t1" "2" alice (initial_users "t0"));
    try reflexivity.
  intros u Hu. destruct (get_initial "t0") as (u0 & Hinit & _).
  rewrite Hinit in Hu. apply list_elem_of_singleton in Hu as ->.
  injection Hinit as <-. reflexivity.
Defined.

(** A successful create shows up in the listing as one more entry at the
    end, equal to the data the create answered with; the entries that
    were listed before are listed unchanged and in the same order. *)
Theorem create_then_list (now : string) (body : obj) (users : store) :
  status (fst (createUser now body users)) = 201 ->
  exists (d : value) (items : list value),
    data (fst (createUser now body users)) = Some d
    /\ fst (getAllUsers users) = ok 200 (VArr items)
    /\ length items = length users
    /\ fst (getAllUsers (snd (createUser now body users)))
       = ok 200 (VArr (items ++ [d])).
Proof.
  intros H201.
  destruct (createUser_created now body users H201)
    as (username & email & _ & _ & _ & _ & _ & _ & ->). simpl.
  eexists _, _. split_and!; [done | done | by rewrite length_map |].
  unfold getAllUsers. simpl. by rewrite map_app.
Qed.

Lemma create_then_list_witness :
  status (fst (createUser "t1" alice (initial_users "t0"))) = 201
  /\ exists (d : value) (items : list value),
       data (fst (createUser "t1" alice (initial_users "t0"))) = Some d
       /\ fst (getAllUsers (initial_users "t0")) = ok 200 (VArr items)
       /\ length items = length (initial_users "t0")
       /\ fst (getAllUsers (snd (createUser "t1" alice (initial_users "t0"))))
          = ok 200 (VArr (items ++ [d])).
Proof.
  split; [reflexivity |].
  apply (create_then_list "t1" alice (initial_users "t0")). reflexivity.
Defined.

(** ** Identifiers in the path *)

(** An identifier that is a valid integer (an optional sign and decimal
    digits) is never answered with 400 by getById, update or delete. *)
Theorem valid_integer_never_rejected (now id : string) (updates : obj)
  (users : store) :
  valid_integer id = true ->
  status (fst (getUserById id users)) <> 400
  /\ status (fst (updateUser now id updates users)) <> 400
  /\ status (fst (deleteUser id users)) <> 400.
Proof.
  intros Hvalid. apply valid_integer_parses in Hvalid.
  destruct (invalid_id_iff now id updates users) as (Hget & Hupd & Hdel).
  rewrite Hget, Hupd, Hdel, Hvalid. by split_and!.
Qed.

Lemma valid_integer_never_rejected_witness :
  valid_integer "-42" = true
  /\ status (fst (getUserById "-42" (initial_users "t0"))) <> 400
  /\ status (fst (updateUser "t1" "-42" promote (initial_users "t0"))) <> 400
  /\ status (fst (deleteUser "-42" (initial_users "t0"))) <> 400.
Proof.
  split; [reflexivity |].
  apply (valid_integer_never_rejected "t1" "-42" promote (initial_users "t0")).
  reflexivity.
Defined.

Lemma trimStart_all_space (ws s : string) :
  all_space ws = true -> trimStart (ws ++ s) = trimStart s.
Proof.
  induction ws as [| c ws IH]; simpl; [done |].
  intros [Hc Hws]%andb_prop. rewrite Hc. by apply IH.
Qed.

(** White space in front of an identifier is ignored: getById, update
    and delete answer and act on [ws ++ id] exactly as on [id]. *)
Theorem leading_space_ignored (now ws id : string) (updates : obj)
  (users : store) :
  all_space ws = true ->
  getUserById (ws ++ id) users = getUserById id users
  /\ updateUser now (ws ++ id) updates users = updateUser now id updates users
  /\ deleteUser (ws ++ id) users = deleteUser id users.
Proof.
  intros Hws.
  assert (parseInt (ws ++ id) = parseInt id) as Hparse.
  { unfold parseInt. by rewrite trimStart_all_space. }
  unfold getUserById, updateUser, deleteUser. by rewrite Hparse.
Qed.

Lemma leading_space_ignored_witness :
  all_space "  " = true
  /\ getUserById ("  " ++ "1") (initial_users "t0")
     = getUserById "1" (initial_users "t0").
Proof.
  split; [reflexivity |].
  apply (leading_space_ignored "t1" "  " "1" promote (initial_users "t0")).
  reflexivity.
Defined.

(** ** Normalisation of names *)

(** What create stores is in normal form: the stored [username] neither
    starts nor ends with white space, and the stored [email] neither
    starts nor ends with white space and has no capital letter; so
    trimming or lower-casing them again changes nothing. *)
Theorem create_stores_normal_forms (now : string) (body : obj)
  (users : store) :
  status (fst (createUser now body users)) = 201 ->
  exists (newUser : obj) (username email : string),
    snd (createUser now body users) = (users ++ [newUser])%list
    /\ get newUser "username" = VStr username
    /\ get newUser "email" = VStr email
    /\ clean_edges username = true
    /\ clean_edges email = true
    /\ no_capital email = true
    /\ trim username = username
    /\ trim email = email
    /\ toLowerCase email = email.
Proof.
  intros H201.
  destruct (createUser_created now body users H201)
    as (username & email & _ & _ & _ & _ & _ & _ & ->). simpl.
  destruct (get_new_record now (length users) username email
              (role_or_default body)) as (_ & Hu & He & _).
  eexists _, _, _. split_and!; [done | exact Hu | exact He | | | | | |].
  - apply clean_edges_trim.
  - rewrite <- trim_toLowerCase. apply clean_edges_trim.
  - apply toLowerCase_spec.
  - apply trim_idem.
  - by rewrite trim_toLowerCase, trim_idem.
  - apply toLowerCase_idem.
Qed.

Lemma create_stores_normal_forms_witness :
  status (fst (createUser "t1" dave (initial_users "t0"))) = 201
  /\ exists (newUser : obj) (username email : string),
       snd (createUser "t1" dave (initial_users "t0"))
       = (initial_users "t0" ++ [newUser])%list
       /\ get newUser "username" = VStr username
       /\ get newUser "email" = VStr email
       /\ clean_edges username = true
       /\ clean_edges email = true
       /\ no_capital email = true
       /\ trim username = username
       /\ trim email = email
       /\ toLowerCase email = email.
Proof.
  split; [reflexivity |].
  apply (create_stores_normal_forms "t1" dave (initial_users "t0")).
  reflexivity.
Defined.

(** ** Exceptions over runs *)

Lemma string_named_handle (now : string) (r : request) (users : store) :
  string_updates r ->
  Forall string_named users ->
  Forall string_named (snd (handle now r users)).
Proof.
  intros Hr Hall. destruct r as [| id | body | id updates | id]; simpl.
  - done.
  - by rewrite getUserById_store.
  - destruct (decide (status (fst (createUser now body users)) = 201))
      as [H201 | Hfail]; [| by rewrite createUser_unchanged].
    destruct (createUser_created now body users H201)
      as (username & email & _ & _ & _ & _ & _ & _ & ->). simpl.
    apply Forall_app. split; [done |].
    apply Forall_singleton, string_named_new_record.
  - destruct (updateUser_cases now id updates users)
      as [[_ ->] | (i & u & Hu & _ & _ & _ & _ & ->)]; [done |].
    apply Forall_insert; [done |].
    rewrite Forall_forall in Hall.
    destruct (Hall u) as (a & b & Ha & Hb); [by eapply list_elem_of_lookup_2 |].
    assert (forall k old, k = "username" \/ k = "email" ->
              get u k = VStr old ->
              exists s, get (updatedUser now (parseInt id) updates users i) k
                        = VStr s) as Hkeep.
    { intros k old Hk Hold. unfold get at 1.
      rewrite (lookup_updatedUser _ _ _ _ _ _ _ Hu).
      rewrite !decide_False by (by destruct Hk as [-> | ->]).
      destruct (updates !! k) as [v |] eqn:Hv; simpl.
      - pose proof (Hr k v Hk Hv) as Hstr. destruct v; try done. by eexists.
      - exists old. exact Hold. }
    destruct (Hkeep "username" a) as (a' & Ha'); [by left | done |].
    destruct (Hkeep "email" b) as (b' & Hb'); [by right | done |].
    by exists a', b'.
  - destruct (deleteUser_store id users) as [-> | (i & ->)]; [done |].
    by apply Forall_delete.
Qed.

(** As long as updates give [username] and [email] only string values,
    every stored record keeps string names, and a create whose
    [username] and [email] are strings never answers 500: it answers
    400, 409 or 201. *)
Theorem create_never_throws_on_strings (t0 now : string) (body : obj)
  (users : store) :
  reachable_by string_updates t0 users ->
  is_string (get body "username") = true ->
  is_string (get body "email") = true ->
  Forall string_named users
  /\ (status (fst (createUser now body users)) = 400
      \/ status (fst (createUser now body users)) = 409
      \/ status (fst (createUser now body users)) = 201).
Proof.
  intros Hreach Hu He.
  assert (Forall string_named users) as Hall.
  { induction Hreach as [| now' r users Hr _ IH].
    - apply string_named_initial.
    - by apply string_named_handle. }
  split; [done |].
  destruct (required_present body) eqn:Hreq.
  - destruct (get body "username") as [| | | | username | |] eqn:Hname; try done.
    destruct (get body "email") as [| | | | email | |] eqn:Hmail; try done.
    unfold required_present in Hreq. rewrite Hname, Hmail in Hreq.
    apply andb_prop in Hreq as [[Hnu Hne]%andb_prop Hp].
    rewrite (createUser_string_named now body users username email);
      [| done | done | | | done | done].
    + destruct (List.find _ users); simpl; auto.
    + intros ->. done.
    + intros ->. done.
  - left. by rewrite createUser_missing_field.
Qed.

Lemma create_never_throws_on_strings_witness :
  reachable_by string_updates "t0"
    (snd (handle "t1" (Update "1" rename_to_Admin) (initial_users "t0")))
  /\ is_string (get alice "username") = true
  /\ is_string (get alice "email") = true
  /\ (status (fst (createUser "t2" alice
        (snd (handle "t1" (Update "1" rename_to_Admin) (initial_users "t0")))))
      = 400
      \/ status (fst (createUser "t2" alice
           (snd (handle "t1" (Update "1" rename_to_Admin) (initial_users "t0")))))
         = 409
      \/ status (fst (createUser "t2" alice
           (snd (handle "t1" (Update "1" rename_to_Admin) (initial_users "t0")))))
         = 201).
Proof.
  assert (reachable_by string_updates "t0"
            (snd (handle "t1" (Update "1" rename_to_Admin) (initial_users "t0"))))
    as Hreach.
  { apply reachable_handle; [| apply reachable_initial].
    intros k v Hk Hv. unfold rename_to_Admin, literal in Hv. simpl in Hv.
    destruct Hk as [-> | ->].
    - rewrite lookup_insert_eq in Hv. by injection Hv as <-.
    - rewrite lookup_insert_ne, lookup_empty in Hv; done. }
  split; [exact Hreach |]. do 2 (split; [reflexivity |]).
  apply (create_never_throws_on_strings "t0" "t2" alice _ Hreach); reflexivity.
Defined.

(** ** Reading *)

(** The listing is complete and ordered: it has one entry per stored
    record, in the order of the collection, and entry [i] shows the
    stored values of the five public fields of record [i]; the
    collection is not changed. *)
Theorem list_shows_every_record (users : store) :
  exists items : list value,
    getAllUsers users = (ok 200 (VArr items), users)
    /\ length items = length users
    /\ forall (i : nat) (u : obj),
         users !! i = Some u ->
         exists d : obj,
           items !! i = Some (VObj d)
           /\ dom d = public_fields
           /\ forall k, k ∈ public_fields -> get d k = get u k.
Proof.
  eexists. split_and!; [reflexivity | apply length_map |].
  intros i u Hi. exists (sanitizedUser u). split_and!.
  - change (map ?f users) with (f <$> users).
    by rewrite list_lookup_fmap, Hi.
  - apply dom_sanitizedUser.
  - apply get_sanitizedUser.
Qed.

(** getById answers 200 exactly when some record holds the parsed
    identifier, 404 exactly when the identifier is a number no record
    holds, and 400 exactly when it does not parse. *)
Theorem get_status (id : string) (users : store) :
  (status (fst (getUserById id users)) = 200
   <-> exists u, u ∈ users /\ has_id (parseInt id) u = true)
  /\ (status (fst (getUserById id users)) = 404
      <-> isNaN (parseInt id) = false
          /\ forall u, u ∈ users -> has_id (parseInt id) u = false)
  /\ (status (fst (getUserById id users)) = 400
      <-> isNaN (parseInt id) = true).
Proof.
  assert (isNaN (parseInt id) = true ->
          forall u : obj, has_id (parseInt id) u = false) as Hnan.
  { intros Hnum u. unfold has_id, strict_eq_num.
    destruct (parseInt id); try done. by destruct (get u "id") as [| | | [] | | |]. }
  unfold getUserById. destruct (isNaN (parseInt id)) eqn:Hnum; simpl.
  - split_and!.
    + split; [done |]. intros (u & _ & Hu). by rewrite Hnan in Hu.
    + split; [done | by intros [? _]].
    + done.
  - destruct (List.find _ users) as [u |] eqn:Hfind; simpl.
    + apply find_some in Hfind as [Hin Hu]. apply list_elem_of_In in Hin.
      split_and!.
      * split; [by eauto | done].
      * split; [done |]. intros [_ Hnone]. by rewrite Hnone in Hu.
      * done.
    + split_and!.
      * split; [done |]. intros (u & Hin & Hu). apply list_elem_of_In in Hin.
        by rewrite (find_none _ _ Hfind u Hin) in Hu.
      * split; [| done]. intros _. split; [done |]. intros u Hin.
        apply list_elem_of_In in Hin. by apply (find_none _ _ Hfind).
      * done.
Qed.

(** ** The shape of stored records *)

Lemma dom_new_record (now : string) (n : nat) (username email : string)
  (role : value) :
  dom (new_record now n username email role) = public_fields.
Proof.
  unfold new_record, literal. simpl. rewrite !dom_insert_L, dom_empty_L.
  unfold public_fields. set_solver.
Qed.

Lemma dom_updatedUser (now : string) (userId : number) (updates : obj)
  (users : store) (i : nat) (u : obj) :
  users !! i = Some u ->
  dom (updatedUser now userId updates users i)
  = {["updatedAt"; "id"]} ∪ dom updates ∪ dom u.
Proof.
  intros Hu. unfold updatedUser, spread. rewrite Hu. simpl.
  rewrite !dom_insert_L, dom_union_L. set_solver.
Qed.

Lemma dom_initial (t0 : string) :
  Forall (fun u : obj => dom u = public_fields) (initial_users t0).
Proof.
  apply Forall_singleton. unfold literal. simpl.
  rewrite !dom_insert_L, dom_empty_L. unfold public_fields. set_solver.
Qed.

(** Whatever requests are served, every stored record always has the
    properties [id], [username], [email], [role] and [createdAt]; and as
    long as no update is served it has no other property, so that create
    never stores the password it is given. *)
Theorem stored_fields (t0 : string) (users : store) :
  (reachable t0 users ->
   Forall (fun u : obj => public_fields ⊆ dom u) users)
  /\ (reachable_by no_update t0 users ->
      Forall (fun u : obj => dom u = public_fields /\ u !! "password" = None)
        users).
Proof.
  split.
  - intros Hreach. induction Hreach as [| now r users _ _ IH].
    + eapply Forall_impl; [apply dom_initial |]. by intros u ->.
    + destruct r as [| id | body | id updates | id]; simpl.
      * done.
      * by rewrite getUserById_store.
      * destruct (decide (status (fst (createUser now body users)) = 201))
          as [H201 | Hfail]; [| by rewrite createUser_unchanged].
        destruct (createUser_created now body users H201)
          as (username & email & _ & _ & _ & _ & _ & _ & ->). simpl.
        apply Forall_app. split; [done |].
        apply Forall_singleton. by rewrite dom_new_record.
      * destruct (updateUser_cases now id updates users)
          as [[_ ->] | (i & u & Hu & _ & _ & _ & _ & ->)]; [done |].
        apply Forall_insert; [done |].
        rewrite (dom_updatedUser _ _ _ _ _ _ Hu).
        rewrite Forall_forall in IH.
        pose proof (IH u (list_elem_of_lookup_2 _ _ _ Hu)). set_solver.
      * destruct (deleteUser_store id users) as [-> | (i & ->)]; [done |].
        by apply Forall_delete.
  - intros Hreach.
    assert (Forall (fun u : obj => dom u = public_fields) users) as Hdom.
    { induction Hreach as [| now r users Hr _ IH].
      + apply dom_initial.
      + destruct r as [| id | body | id updates | id]; simpl.
        * done.
        * by rewrite getUserById_store.
        * destruct (decide (status (fst (createUser now body users)) = 201))
            as [H201 | Hfail]; [| by rewrite createUser_unchanged].
          destruct (createUser_created now body users H201)
            as (username & email & _ & _ & _ & _ & _ & _ & ->). simpl.
          apply Forall_app. split; [done |].
          apply Forall_singleton, dom_new_record.
        * done.
        * destruct (deleteUser_store id users) as [-> | (i & ->)]; [done |].
          by apply Forall_delete. }
    eapply Forall_impl; [exact Hdom |]. intros u Hu. split; [done |].
    apply not_elem_of_dom. rewrite Hu. unfold public_fields. set_solver.
Qed.

Lemma stored_fields_witness :
  reachable_by no_update "t0"
    (snd (handle "t1" (Create alice) (initial_users "t0")))
  /\ Forall (fun u : obj => dom u = public_fields /\ u !! "password" = None)
       (snd (handle "t1" (Create alice) (initial_users "t0"))).
Proof.
  assert (reachable_by no_update "t0"
            (snd (handle "t1" (Create alice) (initial_users "t0")))) as Hreach.
  { apply reachable_handle; [exact I | apply reachable_initial]. }
  split; [exact Hreach |].
  exact (proj2 (stored_fields "t0" _) Hreach).
Defined.
